(** * localstack-backup: a shallow embedding of [localstack-backup.py]

    The script saves the state of three emulated cloud services (object
    storage, queues, topics) into six pickle files and replays them.  It
    is embedded here as Rocq functions in a state-and-exception monad
    over a [world]: the emulator behind the service client, the snapshot
    files of the working directory, the console, and the random source.

    Python values that flow through the script (service responses,
    pickled records) are the terms of [pyval]; every dynamic operation
    the script performs on them (subscription, [in], [len], iteration,
    [int], method calls) is a function that raises the exception Python
    raises when the value has the wrong shape. *)

From Stdlib Require Import ZArith String Ascii List Lia.
From Stdlib.Strings Require Import Byte.
From Stdlib Require Import DecimalString DecimalNat DecimalZ.
From stdpp Require Import base option list strings gmap.

Open Scope Z_scope.

Set Warnings "-register-all".

(** ** Python values *)

(** A [str] is a Rocq [string], one [ascii] per character.  A [dict] is
    an association list in insertion order; the script only ever uses
    [str] keys.  [PBody] is the streaming body that [get_object] returns
    under ['Body']. *)
Inductive pyval : Type :=
| PNone
| PBool (b : bool)
| PInt (z : Z)
| PStr (s : string)
| PBytes (b : list byte)
| PBody (b : list byte)
| PList (l : list pyval)
| PDict (d : list (string * pyval)).

Inductive exn : Type :=
| KeyError (k : pyval)
| AttributeError (attr : string)
| TypeError
| IndexError
| ValueError
| FileNotFoundError (f : string)
| EOFError
| ParamValidationError
| ClientError (code : string)
| EndpointConnectionError.

Inductive result (A : Type) : Type :=
| Ok (a : A)
| Raise (e : exn).
Arguments Ok {A} a.
Arguments Raise {A} e.

Definition is_ok {A} (r : result A) : bool :=
  match r with Ok _ => true | Raise _ => false end.

(** *** Characters the script's literals need *)

Definition nl : string := String "010"%char EmptyString.
Definition dq : string := String "034"%char EmptyString.

(** *** Dictionaries *)

Fixpoint dict_get (k : string) (d : list (string * pyval)) : option pyval :=
  match d with
  | [] => None
  | (k', v) :: d' => if String.eqb k k' then Some v else dict_get k d'
  end.

Fixpoint dict_set (k : string) (v : pyval) (d : list (string * pyval))
  : list (string * pyval) :=
  match d with
  | [] => [(k, v)]
  | (k', v') :: d' =>
      if String.eqb k k' then (k, v) :: d' else (k', v') :: dict_set k v d'
  end.

Definition dict_has (k : string) (d : list (string * pyval)) : bool :=
  match dict_get k d with Some _ => true | None => false end.

(** *** String methods *)

(** [s.lower()], on the ASCII letters. *)
Definition lower_ascii (a : ascii) : ascii :=
  let n := nat_of_ascii a in
  if (Nat.leb 65 n && Nat.leb n 90)%bool then ascii_of_nat (n + 32) else a.

Fixpoint lower (s : string) : string :=
  match s with
  | EmptyString => EmptyString
  | String a s' => String (lower_ascii a) (lower s')
  end.

(** [s.split(c)] for a one-character separator: never the empty list. *)
Fixpoint split_on (c : ascii) (s : string) : list string :=
  match s with
  | EmptyString => [EmptyString]
  | String a s' =>
      if Ascii.eqb a c then EmptyString :: split_on c s'
      else match split_on c s' with
           | [] => [String a EmptyString]
           | seg :: segs => String a seg :: segs
           end
  end.

Definition endswith (s suf : string) : bool :=
  let n := String.length s in
  let m := String.length suf in
  (Nat.leb m n && String.eqb (substring (n - m) m s) suf)%bool.

Fixpoint is_substring (p s : string) : bool :=
  (String.prefix p s ||
   match s with
   | EmptyString => false
   | String _ s' => is_substring p s'
   end)%bool.

Definition ascii_letters : string :=
  "abcdefghijklmnopqrstuvwxyzABCDEFGHIJKLMNOPQRSTUVWXYZ".

Definition char_at (n : nat) (s : string) : ascii :=
  match String.get n s with Some a => a | None => "a"%char end.

(** *** Dynamic operations *)

(** [v[k]] with a [str] key. *)
Definition py_getitem (v : pyval) (k : string) : result pyval :=
  match v with
  | PDict d =>
      match dict_get k d with
      | Some x => Ok x
      | None => Raise (KeyError (PStr k))
      end
  | _ => Raise TypeError
  end.

(** [v[i]] with an [int] index; negative indices count from the end. *)
Definition py_index (v : pyval) (i : Z) : result pyval :=
  match v with
  | PList l =>
      let n := Z.of_nat (length l) in
      let j := if i <? 0 then i + n else i in
      if (0 <=? j) && (j <? n)
      then match l !! Z.to_nat j with
           | Some x => Ok x
           | None => Raise IndexError
           end
      else Raise IndexError
  | PStr s =>
      let n := Z.of_nat (String.length s) in
      let j := if i <? 0 then i + n else i in
      if (0 <=? j) && (j <? n)
      then match String.get (Z.to_nat j) s with
           | Some a => Ok (PStr (String a EmptyString))
           | None => Raise IndexError
           end
      else Raise IndexError
  | PBytes b =>
      let n := Z.of_nat (length b) in
      let j := if i <? 0 then i + n else i in
      if (0 <=? j) && (j <? n)
      then match b !! Z.to_nat j with
           | Some x => Ok (PInt (Z.of_N (Byte.to_N x)))
           | None => Raise IndexError
           end
      else Raise IndexError
  | PDict _ => Raise (KeyError (PInt i))
  | _ => Raise TypeError
  end.

(** [k in v] for a [str] [k]: a key of a dict, an item of a list, a
    substring of a str; never a piece of a streaming body. *)
Definition py_in (k : string) (v : pyval) : result bool :=
  match v with
  | PDict d => Ok (dict_has k d)
  | PList l =>
      Ok (existsb (fun x => match x with
                            | PStr s => String.eqb k s
                            | _ => false
                            end) l)
  | PStr s => Ok (is_substring k s)
  | PBody _ => Ok false
  | _ => Raise TypeError
  end.

(** The same test with the container first, as a method would take it. *)
Definition py_contains (v : pyval) (k : string) : result bool := py_in k v.

Definition py_len (v : pyval) : result Z :=
  match v with
  | PStr s => Ok (Z.of_nat (String.length s))
  | PBytes b => Ok (Z.of_nat (length b))
  | PList l => Ok (Z.of_nat (length l))
  | PDict d => Ok (Z.of_nat (length d))
  | _ => Raise TypeError
  end.

Fixpoint chars (s : string) : list pyval :=
  match s with
  | EmptyString => []
  | String a s' => PStr (String a EmptyString) :: chars s'
  end.

(** A streaming body is read in pieces of [size] bytes. *)
Fixpoint chunks (fuel size : nat) (b : list byte) : list (list byte) :=
  match fuel, b with
  | S fuel', _ :: _ => take size b :: chunks fuel' size (drop size b)
  | _, _ => []
  end.

(** The sequence a [for] loop walks: the items of a list, the keys of a
    dict, the characters of a str, the bytes of a bytes object, the
    1024-byte pieces of a streaming body. *)
Definition py_iter (v : pyval) : result (list pyval) :=
  match v with
  | PList l => Ok l
  | PDict d => Ok (map (fun kv => PStr (fst kv)) d)
  | PStr s => Ok (chars s)
  | PBytes b => Ok (map (fun x => PInt (Z.of_N (Byte.to_N x))) b)
  | PBody b => Ok (map PBytes (chunks (length b) 1024 b))
  | _ => Raise TypeError
  end.

(** [int(v)] on a decimal literal, as Python reads it: blanks around
    it are dropped, a sign may lead, and single underscores may stand
    between digits. *)
Definition is_space (a : ascii) : bool :=
  let n := nat_of_ascii a in
  ((Nat.leb 9 n && Nat.leb n 13) || (Nat.leb 28 n && Nat.leb n 32))%bool.

Definition is_digit (a : ascii) : bool :=
  let n := nat_of_ascii a in
  (Nat.leb 48 n && Nat.leb n 57)%bool.

Fixpoint lstrip (s : string) : string :=
  match s with
  | EmptyString => EmptyString
  | String a s' => if is_space a then lstrip s' else s
  end.

Fixpoint rstrip (s : string) : string :=
  match s with
  | EmptyString => EmptyString
  | String a s' =>
      match rstrip s' with
      | EmptyString => if is_space a then EmptyString else String a EmptyString
      | t => String a t
      end
  end.

Definition strip (s : string) : string := rstrip (lstrip s).

(** The digits of a literal without its underscores; [after_digit] tells
    whether the character before was a digit, which an underscore and
    the end of the literal both need. *)
Fixpoint digits (after_digit : bool) (s : string) : option string :=
  match s with
  | EmptyString => if after_digit then Some EmptyString else None
  | String a s' =>
      if is_digit a then option_map (String a) (digits true s')
      else if Ascii.eqb a "_"
           then (if after_digit then digits false s' else None)
           else None
  end.

(** A literal in the plain form of sign and digits, if it is one. *)
Definition literal (s : string) : option string :=
  match s with
  | EmptyString => None
  | String a r =>
      if Ascii.eqb a "+" then digits false r
      else if Ascii.eqb a "-" then option_map (String a) (digits false r)
      else digits false s
  end.

Definition parse_int (s : string) : result Z :=
  match literal (strip s) with
  | Some t =>
      match NilZero.int_of_string t with
      | Some d => Ok (Z.of_int d)
      | None => Raise ValueError
      end
  | None => Raise ValueError
  end.

Definition py_int (v : pyval) : result Z :=
  match v with
  | PInt z => Ok z
  | PBool b => Ok (if b then 1 else 0)
  | PStr s => parse_int s
  | PBytes b => parse_int (string_of_list_byte b)
  | _ => Raise TypeError
  end.

Definition str_of_nat (n : nat) : string :=
  NilZero.string_of_int (Z.to_int (Z.of_nat n)).

(** [v.endswith(suf)], [v.split(c)], [v.read()], [v.has_key(k)]. *)
Definition py_endswith (v : pyval) (suf : string) : result bool :=
  match v with
  | PStr s => Ok (endswith s suf)
  | PBytes _ => Raise TypeError
  | _ => Raise (AttributeError "endswith")
  end.

Definition py_split (v : pyval) (c : ascii) : result pyval :=
  match v with
  | PStr s => Ok (PList (map PStr (split_on c s)))
  | PBytes _ => Raise TypeError
  | _ => Raise (AttributeError "split")
  end.

Definition py_read (v : pyval) : result pyval :=
  match v with
  | PBody b => Ok (PBytes b)
  | _ => Raise (AttributeError "read")
  end.

(** No value of Python 3 has a [has_key] method. *)
Definition py_has_key (v : pyval) (k : string) : result bool :=
  Raise (AttributeError "has_key").

(** [s + v] for a [str] [s]. *)
Definition py_concat (s : string) (v : pyval) : result string :=
  match v with
  | PStr t => Ok (s +:+ t)
  | _ => Raise TypeError
  end.

(** What [pickle.dump] accepts: everything but an open stream. *)
Fixpoint picklable (v : pyval) : bool :=
  match v with
  | PBody _ => false
  | PList l => forallb picklable l
  | PDict d => forallb (fun kv => picklable (snd kv)) d
  | _ => true
  end.

(** ** The world the script runs in *)

Inductive service : Type := S3 | SQS | SNS.

(** What a run does that can be observed from outside: console output
    (the literal and interpolated parts of each printed line, in order),
    the prompt of [input], snapshot files written and read, and the
    requests sent through the service clients. *)
Inductive event : Type :=
| Print (parts : list pyval)
| Prompt (text : string)
| FileWrite (f : string) (v : pyval)
| FileRead (f : string)
| ApiCall (svc : service) (op : string) (kwargs : list (string * pyval)).

(** The service client library, as the script uses it: [client] tells
    whether [boto3.client] hands out a client, [api] answers one request
    with a response (or a fault) and the emulator's next state. *)
Class Boto (E : Type) : Type := {
  client : service -> E -> bool;
  api : service -> string -> list (string * pyval) -> E -> result pyval * E
}.

(** A snapshot file holds one pickled value, or nothing when a dump
    failed after the file was opened for writing. *)
Inductive file : Type :=
| Pickle (v : pyval)
| Truncated.

Record world (E : Type) : Type := World {
  emu : E;
  fs : gmap string file;
  stdin : list string;
  rand : nat -> nat;
  draws : nat;
  out : list event
}.
Arguments World {E} _ _ _ _ _ _.
Arguments emu {E} _.
Arguments fs {E} _.
Arguments stdin {E} _.
Arguments rand {E} _.
Arguments draws {E} _.
Arguments out {E} _.

Definition M (E A : Type) : Type := world E -> result A * world E.

Definition M_ret {E A} (a : A) : M E A := fun w => (Ok a, w).

Definition M_bind {E A B} (k : A -> M E B) (m : M E A) : M E B :=
  fun w =>
    match m w with
    | (Ok a, w') => k a w'
    | (Raise e, w') => (Raise e, w')
    end.

#[global] Instance M_mret E : MRet (M E) := @M_ret E.
#[global] Instance M_mbind E : MBind (M E) := @M_bind E.

Section Script.
Context {E : Type} `{Boto E}.

Definition emit (ev : event) (w : world E) : world E :=
  World (emu w) (fs w) (stdin w) (rand w) (draws w) (out w ++ [ev]).

Definition lift {A} (r : result A) : M E A := fun w => (r, w).

Definition print (parts : list pyval) : M E unit :=
  fun w => (Ok tt, emit (Print parts) w).

(** [choice = input(text)]: at end of input Python raises [EOFError]. *)
Definition input (text : string) : M E string :=
  fun w =>
    let w1 := emit (Prompt text) w in
    match stdin w1 with
    | [] => (Raise EOFError, w1)
    | line :: rest =>
        (Ok line, World (emu w1) (fs w1) rest (rand w1) (draws w1) (out w1))
    end.

(** [with open(f, 'wb') as h: pickle.dump(v, h)].  Opening truncates
    the file, so a value that cannot be pickled leaves it empty. *)
Definition pickle_dump (f : string) (v : pyval) : M E unit :=
  fun w =>
    if picklable v
    then (Ok tt, emit (FileWrite f v)
                   (World (emu w) (<[f := Pickle v]> (fs w)) (stdin w)
                          (rand w) (draws w) (out w)))
    else (Raise TypeError,
          World (emu w) (<[f := Truncated]> (fs w)) (stdin w)
                (rand w) (draws w) (out w)).

(** [pickle.load(open(f, "rb"))]. *)
Definition pickle_load (f : string) : M E pyval :=
  fun w =>
    match fs w !! f with
    | Some (Pickle v) => (Ok v, emit (FileRead f) w)
    | Some Truncated => (Raise EOFError, emit (FileRead f) w)
    | None => (Raise (FileNotFoundError f), w)
    end.

(** One request through a client: [svc.op(key=value, ...)]. *)
Definition call (svc : service) (op : string)
    (kwargs : list (string * pyval)) : M E pyval :=
  fun w =>
    let w1 := emit (ApiCall svc op kwargs) w in
    let '(r, e') := api svc op kwargs (emu w1) in
    (r, World e' (fs w1) (stdin w1) (rand w1) (draws w1) (out w1)).

Definition boto3_client (svc : service) : M E unit :=
  fun w =>
    if client svc (emu w) then (Ok tt, w)
    else (Raise (ClientError "client"), w).

(** [try: body  except: handler], the bare [except] of the script. *)
Definition try_except {A} (body handler : M E A) : M E A :=
  fun w =>
    match body w with
    | (Ok a, w') => (Ok a, w')
    | (Raise _, w') => handler w'
    end.

Definition random_choice (letters : string) : M E ascii :=
  fun w =>
    let i := (rand w (draws w) mod String.length letters)%nat in
    (Ok (char_at i letters),
     World (emu w) (fs w) (stdin w) (rand w) (S (draws w)) (out w)).

(** A [for] loop whose body updates the local list it appends to. *)
Fixpoint for_acc {A B} (l : list A) (acc : B) (body : A -> B -> M E B)
  : M E B :=
  match l with
  | [] => mret acc
  | x :: l' => acc' ← body x acc; for_acc l' acc' body
  end.

Fixpoint for_each {A} (l : list A) (body : A -> M E unit) : M E unit :=
  match l with
  | [] => mret tt
  | x :: l' => body x;; for_each l' body
  end.

(** [''.join(random.choice(letters) for i in range(strlen))] *)
Fixpoint gen_rand_str (strlen : nat) : M E string :=
  match strlen with
  | O => mret EmptyString
  | S n =>
      c ← random_choice ascii_letters;
      s ← gen_rand_str n;
      mret (String c s)
  end.

Definition connect (svc : service) (complaint : string) : M E bool :=
  try_except (boto3_client svc;; mret true)
             (print [PStr complaint];; mret false).

Definition s3_down : string :=
  nl +:+ "***Unable to connect to LocalStack S3 service - make sure everything is running***" +:+ nl.
Definition sqs_down : string :=
  nl +:+ "***Unable to connect to LocalStack SQS service - make sure everything is running***" +:+ nl.
Definition sns_down : string := "Error connecting to SNS!!!".

(** *** backup_s3 *)

Definition backup_object (bucket : pyval) (obj : pyval)
    (objects : list pyval) : M E (list pyval) :=
  key ← lift (py_getitem obj "Key");
  print [PStr "    Working on object "; key];;
  name ← lift (py_getitem bucket "Name");
  obj_details ← call S3 "get_object" [("Bucket", name); ("Key", key)];
  body ← lift (py_getitem obj_details "Body");
  data ← lift (py_read body);
  mret (objects ++ [PDict [("bucket_name", name); ("object_key", key);
                           ("object_body", data)]]).

Definition backup_bucket (bucket : pyval) (objects : list pyval)
  : M E (list pyval) :=
  name ← lift (py_getitem bucket "Name");
  print [PStr "Working on bucket "; name];;
  contents ← call S3 "list_objects" [("Bucket", name)];
  listed ← lift (py_getitem contents "Contents");
  objs ← lift (py_iter listed);
  for_acc objs objects (backup_object bucket).

Definition backup_s3 : M E bool :=
  let success := false in
  s3_conn ← connect S3 s3_down;
  (if s3_conn : bool then
     buckets ← call S3 "list_buckets" [];
     let objects := [] in
     bs ← lift (py_getitem buckets "Buckets");
     bs ← lift (py_iter bs);
     bucket_list ← for_acc bs []
       (fun bucket bucket_list =>
          name ← lift (py_getitem bucket "Name");
          mret (bucket_list ++ [name]));
     pickle_dump "s3_buckets.pickle" (PList bucket_list);;
     objects ← for_acc bs objects backup_bucket;
     pickle_dump "s3_objects.pickle" (PList objects)
   else mret tt);;
  mret success.

(** *** backup_sqs *)

(** One pass of the receive loop: read one message, record it, delete
    it from the queue. *)
Definition drain_one (queue_url : pyval) (all_messages : list pyval)
  : M E (list pyval) :=
  response ← call SQS "receive_message"
               [("QueueUrl", queue_url); ("MaxNumberOfMessages", PInt 1)];
  messages ← lift (py_getitem response "Messages");
  message ← lift (py_index messages 0);
  body ← lift (py_getitem message "Body");
  let all_messages :=
    all_messages ++ [PDict [("queue", queue_url); ("body", body)]] in
  handle ← lift (py_getitem message "ReceiptHandle");
  call SQS "delete_message"
       [("QueueUrl", queue_url); ("ReceiptHandle", handle)];;
  mret all_messages.

Definition backup_queue (queue_url : pyval) (all_messages : list pyval)
  : M E (list pyval) :=
  print [PStr "Processing queue: "; queue_url];;
  response ← call SQS "get_queue_attributes"
               [("QueueUrl", queue_url);
                ("AttributeNames",
                 PList [PStr "ApproximateNumberOfMessages"])];
  attributes ← lift (py_getitem response "Attributes");
  approx ← lift (py_getitem attributes "ApproximateNumberOfMessages");
  msg_count ← lift (py_int approx);
  print [PStr "Expecting "; PInt msg_count; PStr " messages"];;
  if 0 <? msg_count
  then for_acc (seq 0 (Z.to_nat msg_count)) all_messages
               (fun _ => drain_one queue_url)
  else mret all_messages.

Definition backup_sqs : M E bool :=
  let success := false in
  sqs_conn ← connect SQS sqs_down;
  (if sqs_conn : bool then
     queues ← call SQS "list_queues" [];
     queueUrls ← lift (py_getitem queues "QueueUrls");
     pickle_dump "sqs_queues.pickle" queueUrls;;
     let all_messages := [] in
     urls ← lift (py_iter queueUrls);
     all_messages ← for_acc urls all_messages backup_queue;
     pickle_dump "sqs_messages.pickle" (PList all_messages)
   else mret tt);;
  mret success.

(** *** backup_sns *)

(** The record kept for one subscription of [topic] (lines 179-185). *)
Definition backup_subscription (topic subscription : pyval)
  : result pyval :=
  match py_getitem subscription "SubscriptionArn" with
  | Raise e => Raise e
  | Ok sub_arn =>
  match py_getitem subscription "Protocol" with
  | Raise e => Raise e
  | Ok protocol =>
  match py_getitem subscription "Endpoint" with
  | Raise e => Raise e
  | Ok endpoint =>
    let this_sub := [("topicARN", topic); ("subARN", sub_arn);
                     ("protocol", protocol); ("endpoint", endpoint)] in
    match py_in "RawMessageDelivery" subscription with
    | Raise e => Raise e
    | Ok false => Ok (PDict this_sub)
    | Ok true =>
      match py_getitem subscription "RawMessageDelivery" with
      | Raise e => Raise e
      | Ok raw =>
        match py_in "RedrivePolicy" raw with
        | Raise e => Raise e
        | Ok false => Ok (PDict this_sub)
        | Ok true =>
          match py_getitem raw "RedrivePolicy" with
          | Raise e => Raise e
          | Ok redrive_policy =>
            match py_getitem redrive_policy "deadLetterTargetArn" with
            | Raise e => Raise e
            | Ok arn => Ok (PDict (dict_set "DLQARN" arn this_sub))
            end
          end
        end
      end
    end
  end end end.

Definition backup_topic (topic : pyval) (subscription_list : list pyval)
  : M E (list pyval) :=
  response ← call SNS "list_subscriptions_by_topic" [("TopicArn", topic)];
  subscriptions ← lift (py_getitem response "Subscriptions");
  subs ← lift (py_iter subscriptions);
  for_acc subs subscription_list
    (fun subscription subscription_list =>
       this_sub ← lift (backup_subscription topic subscription);
       mret (subscription_list ++ [this_sub])).

Definition backup_sns : M E bool :=
  let success := false in
  sns_conn ← connect SNS sns_down;
  (if sns_conn : bool then
     let topic_list := [] in
     response ← call SNS "list_topics" [];
     topics ← lift (py_getitem response "Topics");
     n ← lift (py_len topics);
     if 0 <? n then
       ts ← lift (py_iter topics);
       topic_list ← for_acc ts topic_list
         (fun topic topic_list =>
            arn ← lift (py_getitem topic "TopicArn");
            mret (topic_list ++ [arn]));
       pickle_dump "sns_topics.pickle" (PList topic_list);;
       let subscription_list := [] in
       subscription_list ← for_acc topic_list subscription_list backup_topic;
       pickle_dump "sns_subs.pickle" (PList subscription_list)
     else mret tt
   else mret tt);;
  mret success.

(** *** backup *)

Definition backup : M E unit :=
  backup_s3;; backup_sqs;; backup_sns;; mret tt.

(** *** restore_s3 *)

Definition restore_object (object : pyval) : M E unit :=
  bucket ← lift (py_getitem object "bucket_name");
  key ← lift (py_getitem object "object_key");
  body ← lift (py_getitem object "object_body");
  call S3 "put_object" [("Bucket", bucket); ("Key", key); ("Body", body)];;
  mret tt.

Definition restore_bucket (bucket : pyval) : M E unit :=
  print [PStr "Restoring bucket "; bucket];;
  call S3 "create_bucket" [("Bucket", bucket)];;
  mret tt.

Definition restore_s3 : M E bool :=
  let success := false in
  s3_conn ← connect S3 s3_down;
  (if s3_conn : bool then
     bucket_list ← pickle_load "s3_buckets.pickle";
     n ← lift (py_len bucket_list);
     if 0 <? n then
       bs ← lift (py_iter bucket_list);
       for_each bs restore_bucket;;
       object_list ← pickle_load "s3_objects.pickle";
       k ← lift (py_len object_list);
       if 0 <? k then
         print [PStr "Restoring "; PInt k; PStr " objects"];;
         os ← lift (py_iter object_list);
         for_each os restore_object
       else mret tt
     else mret tt
   else mret tt);;
  mret success.

(** *** restore_sqs *)

Definition restore_queue (queue : pyval) : M E unit :=
  segments ← lift (py_split queue "/");
  queue_name ← lift (py_index segments (-1));
  print [PStr "Recreating "; queue_name];;
  fifo ← lift (py_endswith queue_name ".fifo");
  (if fifo : bool then
     call SQS "create_queue"
          [("QueueName", queue_name);
           ("Attributes",
            PDict [("FifoQueue", PStr "true");
                   ("ContentBasedDeduplication", PStr "true")])]
   else
     call SQS "create_queue" [("QueueName", queue_name)]);;
  mret tt.

Definition restore_message (message : pyval) : M E unit :=
  queue ← lift (py_getitem message "queue");
  fifo ← lift (py_endswith queue ".fifo");
  (if fifo : bool then
     body ← lift (py_getitem message "body");
     group ← gen_rand_str 3;
     dedup ← gen_rand_str 3;
     call SQS "send_message"
          [("QueueUrl", queue); ("MessageBody", body);
           ("MessageGroupId", PStr group);
           ("MessageDeduplicationId", PStr dedup)]
   else
     body ← lift (py_getitem message "body");
     call SQS "send_message" [("QueueUrl", queue); ("MessageBody", body)]);;
  mret tt.

(** Lines 259-275: recreate the queues. *)
Definition restore_queues : M E unit :=
  queue_list ← pickle_load "sqs_queues.pickle";
  n ← lift (py_len queue_list);
  if 0 <? n then
    qs ← lift (py_iter queue_list);
    for_each qs restore_queue
  else mret tt.

(** Lines 278-296: send the messages again. *)
Definition restore_messages : M E unit :=
  message_list ← pickle_load "sqs_messages.pickle";
  k ← lift (py_len message_list);
  if 0 <? k then
    print [PStr "Restoring "; PInt k; PStr " messages"];;
    ms ← lift (py_iter message_list);
    for_each ms restore_message
  else mret tt.

Definition restore_sqs : M E bool :=
  let success := false in
  print [PStr "Restoring SQS"];;
  sqs_conn ← connect SQS sqs_down;
  (if sqs_conn : bool then
     restore_queues;;
     restore_messages
   else mret tt);;
  mret success.

(** *** restore_sns *)

Definition redrive_policy (v : pyval) : result string :=
  match py_concat ("{ " +:+ dq +:+ "deadLetterTargetArn" +:+ dq +:+ ": " +:+ dq) v with
  | Ok s => Ok (s +:+ dq +:+ ", " +:+ dq +:+ "maxReceiveCount" +:+ dq
                  +:+ ": " +:+ dq +:+ "5" +:+ dq +:+ "}")
  | Raise e => Raise e
  end.

(** The body of the subscription loop (lines 332-346).  The
    membership test is a parameter: the script probes the record with
    [has_key]; [py_contains] is the test a mapping does support. *)
Definition restore_subscription
    (member : pyval -> string -> result bool) (subscription : pyval)
  : M E unit :=
  dlq ← lift (member subscription "DLQARN");
  (if dlq : bool then
     topic ← lift (py_getitem subscription "TopicARN");
     protocol ← lift (py_getitem subscription "Protocol");
     endpoint ← lift (py_getitem subscription "Endpoint");
     arn ← lift (py_getitem subscription "DLQARN");
     policy ← lift (redrive_policy arn);
     call SNS "subscribe"
          [("TopicArn", topic); ("Protocol", protocol);
           ("Endpoint", endpoint);
           ("Attributes", PDict [("RedrivePolicy", PStr policy)])]
   else
     topic ← lift (py_getitem subscription "TopicARN");
     protocol ← lift (py_getitem subscription "Protocol");
     endpoint ← lift (py_getitem subscription "Endpoint");
     call SNS "subscribe"
          [("TopicArn", topic); ("Protocol", protocol);
           ("Endpoint", endpoint)]);;
  mret tt.

Definition restore_topic (topic : pyval) : M E unit :=
  segments ← lift (py_split topic ":");
  topic_name ← lift (py_index segments (-1));
  print [PStr "Restoring SNS topic: "; topic_name];;
  call SNS "create_topic" [("Name", topic_name)];;
  mret tt.

(** Lines 315-322: recreate the topics. *)
Definition restore_topics : M E unit :=
  topic_list ← pickle_load "sns_topics.pickle";
  n ← lift (py_len topic_list);
  if 0 <? n then
    ts ← lift (py_iter topic_list);
    for_each ts restore_topic
  else mret tt.

(** Lines 325-346: subscribe again. *)
Definition restore_subscriptions
    (member : pyval -> string -> result bool) : M E unit :=
  subscriptions ← pickle_load "sns_subs.pickle";
  k ← lift (py_len subscriptions);
  if 0 <? k then
    print [PStr "Restoring "; PInt k; PStr " SNS subscriptions"];;
    ss ← lift (py_iter subscriptions);
    for_each ss (restore_subscription member)
  else mret tt.

Definition restore_sns_with (member : pyval -> string -> result bool)
  : M E bool :=
  let success := false in
  sns_conn ← connect SNS sns_down;
  (if sns_conn : bool then
     restore_topics;;
     restore_subscriptions member
   else mret tt);;
  mret success.

Definition restore_sns : M E bool := restore_sns_with py_has_key.

(** *** restore and main *)

Definition restore : M E unit :=
  restore_s3;; restore_sqs;; restore_sns;; mret tt.

Definition main : M E unit :=
  print [PStr (nl +:+ nl +:+ nl)];;
  print [PStr "What would you like to do?"];;
  print [PStr "    [b]ackup LocalStack state"];;
  print [PStr ("    [r]estore LocalStack state" +:+ nl)];;
  line ← input "Please enter your choice 'b' or 'r': ";
  let choice := lower line in
  (if negb (existsb (String.eqb choice) ["b"; "r"]) then
     print [PStr (nl +:+ "***Invalid choice - exiting***")]
   else if String.eqb choice "b" then backup
   else restore);;
  print [PStr (nl +:+ "Thanks for using the LocalStack backup tool!" +:+ nl)].
End Script.

(** ** The emulator *)

(** Modelled from the spec: the emulated services themselves are not
    part of the repository; the script only sends them requests.  This
    model answers the fifteen requests the script sends, in the shapes
    the script reads them: a listing carries its sequence under
    ['Buckets'], ['QueueUrls'], ['Topics'] or ['Subscriptions']; the
    object listing of an empty bucket has no ['Contents'] field; a
    receive on an empty queue has no ['Messages'] field; the queue
    listing of an environment without queue has no ['QueueUrls'] field;
    the queue attribute ['ApproximateNumberOfMessages'] is the exact
    count, in decimal.  A listing answers with its first page only: at
    most [max_keys] objects of a bucket, at most [page_size] topics and
    at most [page_size] subscriptions of a topic, with the mark of a
    truncated listing beside them; buckets and queues come in one
    listing.  A received message stays at the head of its queue until
    it is deleted (no visibility timeout).  A send that carries a
    deduplication id its queue has seen before is accepted and
    dropped. *)
Module LocalStack.

Definition localstack_endpoint_url : string := "http://localhost:4566".
Definition account : string := "000000000000".

Record queue : Type := Queue {
  q_name : string;
  q_attrs : list (string * pyval);
  q_msgs : list (string * string)      (* receipt handle, body *)
}.

Record subscription : Type := Subscription {
  sub_arn : string;
  sub_protocol : string;
  sub_endpoint : string;
  sub_attrs : list (string * pyval)
}.

(** [up] tells for which services [boto3.client] hands out a client;
    [seen] holds the deduplication ids each queue has seen. *)
Record state : Type := State {
  up : service -> bool;
  s3 : gmap string (gmap string (list byte));
  sqs : gmap string queue;                  (* by queue URL *)
  sns : gmap string (list subscription);    (* by topic ARN *)
  next_id : nat;
  seen : gmap string (list string)          (* by queue URL *)
}.

Definition set_s3 (e : state) (m : gmap string (gmap string (list byte))) :=
  State (up e) m (sqs e) (sns e) (next_id e) (seen e).
Definition set_sqs (e : state) (m : gmap string queue) :=
  State (up e) (s3 e) m (sns e) (next_id e) (seen e).
Definition set_sns (e : state) (m : gmap string (list subscription)) :=
  State (up e) (s3 e) (sqs e) m (next_id e) (seen e).

(** The page limits of the listings. *)
Definition max_keys : nat := 1000.
Definition page_size : nat := 100.
Arguments max_keys : simpl never.
Arguments page_size : simpl never.

(** What a truncated listing carries beside its first page. *)
Definition next_token (limit : nat) {A} (l : list A)
  : list (string * pyval) :=
  if Nat.ltb limit (length l) then [("NextToken", PStr "1")] else [].

Definition str_arg (k : string) (kwargs : list (string * pyval))
  : result string :=
  match dict_get k kwargs with
  | Some (PStr s) => Ok s
  | _ => Raise ParamValidationError
  end.

(** *** Object storage *)

Definition list_buckets (e : state) : result pyval * state :=
  (Ok (PDict [("Buckets",
               PList (map (fun b => PDict [("Name", PStr (fst b))])
                          (map_to_list (s3 e))))]), e).

Definition list_objects (kwargs : list (string * pyval)) (e : state)
  : result pyval * state :=
  match str_arg "Bucket" kwargs with
  | Raise x => (Raise x, e)
  | Ok b =>
      match s3 e !! b with
      | None => (Raise (ClientError "NoSuchBucket"), e)
      | Some objs =>
          match map_to_list objs with
          | [] => (Ok (PDict [("Name", PStr b); ("IsTruncated", PBool false)]),
                   e)
          | l => (Ok (PDict [("Name", PStr b);
                             ("Contents",
                              PList (map (fun o => PDict [("Key", PStr (fst o))])
                                         (take max_keys l)));
                             ("IsTruncated",
                              PBool (Nat.ltb max_keys (length l)))]), e)
          end
      end
  end.

Definition get_object (kwargs : list (string * pyval)) (e : state)
  : result pyval * state :=
  match str_arg "Bucket" kwargs with
  | Raise x => (Raise x, e)
  | Ok b =>
      match str_arg "Key" kwargs with
      | Raise x => (Raise x, e)
      | Ok k =>
          match s3 e !! b with
          | None => (Raise (ClientError "NoSuchBucket"), e)
          | Some objs =>
              match objs !! k with
              | None => (Raise (ClientError "NoSuchKey"), e)
              | Some body => (Ok (PDict [("Body", PBody body)]), e)
              end
          end
      end
  end.

Definition create_bucket (kwargs : list (string * pyval)) (e : state)
  : result pyval * state :=
  match str_arg "Bucket" kwargs with
  | Raise x => (Raise x, e)
  | Ok b =>
      match s3 e !! b with
      | Some _ => (Ok (PDict [("Location", PStr ("/" +:+ b))]), e)
      | None => (Ok (PDict [("Location", PStr ("/" +:+ b))]),
                 set_s3 e (<[b := ∅]> (s3 e)))
      end
  end.

Definition put_object (kwargs : list (string * pyval)) (e : state)
  : result pyval * state :=
  match str_arg "Bucket" kwargs with
  | Raise x => (Raise x, e)
  | Ok b =>
      match str_arg "Key" kwargs with
      | Raise x => (Raise x, e)
      | Ok k =>
          match dict_get "Body" kwargs with
          | Some (PBytes body) =>
              match s3 e !! b with
              | None => (Raise (ClientError "NoSuchBucket"), e)
              | Some objs =>
                  (Ok (PDict []), set_s3 e (<[b := <[k := body]> objs]> (s3 e)))
              end
          | _ => (Raise ParamValidationError, e)
          end
      end
  end.

(** *** Queues *)

Definition queue_url (name : string) : string :=
  localstack_endpoint_url +:+ "/" +:+ account +:+ "/" +:+ name.

Definition list_queues (e : state) : result pyval * state :=
  match map_to_list (sqs e) with
  | [] => (Ok (PDict []), e)
  | l => (Ok (PDict [("QueueUrls", PList (map (fun q => PStr (fst q)) l))]),
          e)
  end.

Definition get_queue_attributes (kwargs : list (string * pyval))
    (e : state) : result pyval * state :=
  match str_arg "QueueUrl" kwargs with
  | Raise x => (Raise x, e)
  | Ok u =>
      match sqs e !! u with
      | None => (Raise (ClientError "QueueDoesNotExist"), e)
      | Some q =>
          (Ok (PDict [("Attributes",
                       PDict [("ApproximateNumberOfMessages",
                               PStr (str_of_nat (length (q_msgs q))))])]), e)
      end
  end.

Definition receive_message (kwargs : list (string * pyval)) (e : state)
  : result pyval * state :=
  match str_arg "QueueUrl" kwargs with
  | Raise x => (Raise x, e)
  | Ok u =>
      match sqs e !! u with
      | None => (Raise (ClientError "QueueDoesNotExist"), e)
      | Some q =>
          match q_msgs q with
          | [] => (Ok (PDict []), e)
          | (handle, body) :: _ =>
              (Ok (PDict [("Messages",
                           PList [PDict [("MessageId", PStr handle);
                                         ("ReceiptHandle", PStr handle);
                                         ("Body", PStr body)]])]), e)
          end
      end
  end.

Fixpoint remove_handle (h : string) (msgs : list (string * string))
  : list (string * string) :=
  match msgs with
  | [] => []
  | m :: rest =>
      if String.eqb (fst m) h then rest else m :: remove_handle h rest
  end.

Definition delete_message (kwargs : list (string * pyval)) (e : state)
  : result pyval * state :=
  match str_arg "QueueUrl" kwargs with
  | Raise x => (Raise x, e)
  | Ok u =>
      match str_arg "ReceiptHandle" kwargs with
      | Raise x => (Raise x, e)
      | Ok h =>
          match sqs e !! u with
          | None => (Raise (ClientError "QueueDoesNotExist"), e)
          | Some q =>
              (Ok (PDict []),
               set_sqs e (<[u := Queue (q_name q) (q_attrs q)
                                       (remove_handle h (q_msgs q))]> (sqs e)))
          end
      end
  end.

Definition create_queue (kwargs : list (string * pyval)) (e : state)
  : result pyval * state :=
  match str_arg "QueueName" kwargs with
  | Raise x => (Raise x, e)
  | Ok n =>
      let u := queue_url n in
      let attrs := match dict_get "Attributes" kwargs with
                   | Some (PDict a) => a
                   | _ => []
                   end in
      match sqs e !! u with
      | Some _ => (Ok (PDict [("QueueUrl", PStr u)]), e)
      | None => (Ok (PDict [("QueueUrl", PStr u)]),
                 set_sqs e (<[u := Queue n attrs []]> (sqs e)))
      end
  end.

Definition send_message (kwargs : list (string * pyval)) (e : state)
  : result pyval * state :=
  match str_arg "QueueUrl" kwargs with
  | Raise x => (Raise x, e)
  | Ok u =>
      match str_arg "MessageBody" kwargs with
      | Raise x => (Raise x, e)
      | Ok body =>
          match sqs e !! u with
          | None => (Raise (ClientError "QueueDoesNotExist"), e)
          | Some q =>
              let id := str_of_nat (next_id e) in
              let known := default [] (seen e !! u) in
              let queued :=
                <[u := Queue (q_name q) (q_attrs q)
                             (q_msgs q ++ [(id, body)])]> (sqs e) in
              match dict_get "MessageDeduplicationId" kwargs with
              | None =>
                  (Ok (PDict [("MessageId", PStr id)]),
                   State (up e) (s3 e) queued (sns e) (S (next_id e))
                         (seen e))
              | Some (PStr d) =>
                  if existsb (String.eqb d) known
                  then (Ok (PDict [("MessageId", PStr id)]), e)
                  else (Ok (PDict [("MessageId", PStr id)]),
                        State (up e) (s3 e) queued (sns e) (S (next_id e))
                              (<[u := d :: known]> (seen e)))
              | Some _ => (Raise ParamValidationError, e)
              end
          end
      end
  end.

(** *** Topics *)

Definition topic_arn (name : string) : string :=
  "arn:aws:sns:us-east-1:" +:+ account +:+ ":" +:+ name.

Definition list_topics (e : state) : result pyval * state :=
  let l := map_to_list (sns e) in
  (Ok (PDict (("Topics",
               PList (map (fun t => PDict [("TopicArn", PStr (fst t))])
                          (take page_size l)))
              :: next_token page_size l)), e).

Definition show_subscription (topic : string) (s : subscription) : pyval :=
  PDict [("SubscriptionArn", PStr (sub_arn s)); ("Owner", PStr account);
         ("Protocol", PStr (sub_protocol s));
         ("Endpoint", PStr (sub_endpoint s)); ("TopicArn", PStr topic)].

Definition list_subscriptions_by_topic (kwargs : list (string * pyval))
    (e : state) : result pyval * state :=
  match str_arg "TopicArn" kwargs with
  | Raise x => (Raise x, e)
  | Ok t =>
      match sns e !! t with
      | None => (Raise (ClientError "NotFound"), e)
      | Some subs =>
          (Ok (PDict (("Subscriptions",
                       PList (map (show_subscription t)
                                  (take page_size subs)))
                      :: next_token page_size subs)), e)
      end
  end.

Definition create_topic (kwargs : list (string * pyval)) (e : state)
  : result pyval * state :=
  match str_arg "Name" kwargs with
  | Raise x => (Raise x, e)
  | Ok n =>
      let t := topic_arn n in
      match sns e !! t with
      | Some _ => (Ok (PDict [("TopicArn", PStr t)]), e)
      | None => (Ok (PDict [("TopicArn", PStr t)]),
                 set_sns e (<[t := []]> (sns e)))
      end
  end.

Definition subscribe (kwargs : list (string * pyval)) (e : state)
  : result pyval * state :=
  match str_arg "TopicArn" kwargs with
  | Raise x => (Raise x, e)
  | Ok t =>
    match str_arg "Protocol" kwargs with
    | Raise x => (Raise x, e)
    | Ok protocol =>
      match str_arg "Endpoint" kwargs with
      | Raise x => (Raise x, e)
      | Ok endpoint =>
        let attrs := match dict_get "Attributes" kwargs with
                     | Some (PDict a) => a
                     | _ => []
                     end in
        match sns e !! t with
        | None => (Raise (ClientError "NotFound"), e)
        | Some subs =>
            let arn := t +:+ ":" +:+ str_of_nat (next_id e) in
            (Ok (PDict [("SubscriptionArn", PStr arn)]),
             State (up e) (s3 e) (sqs e)
                   (<[t := subs ++ [Subscription arn protocol endpoint attrs]]>
                      (sns e))
                   (S (next_id e)) (seen e))
        end
      end
    end
  end.

(** *** Dispatch *)

Definition request (svc : service) (op : string)
    (kwargs : list (string * pyval)) (e : state) : result pyval * state :=
  match svc with
  | S3 =>
      if String.eqb op "list_buckets" then list_buckets e
      else if String.eqb op "list_objects" then list_objects kwargs e
      else if String.eqb op "get_object" then get_object kwargs e
      else if String.eqb op "create_bucket" then create_bucket kwargs e
      else if String.eqb op "put_object" then put_object kwargs e
      else (Raise (AttributeError op), e)
  | SQS =>
      if String.eqb op "list_queues" then list_queues e
      else if String.eqb op "get_queue_attributes"
           then get_queue_attributes kwargs e
      else if String.eqb op "receive_message" then receive_message kwargs e
      else if String.eqb op "delete_message" then delete_message kwargs e
      else if String.eqb op "create_queue" then create_queue kwargs e
      else if String.eqb op "send_message" then send_message kwargs e
      else (Raise (AttributeError op), e)
  | SNS =>
      if String.eqb op "list_topics" then list_topics e
      else if String.eqb op "list_subscriptions_by_topic"
           then list_subscriptions_by_topic kwargs e
      else if String.eqb op "create_topic" then create_topic kwargs e
      else if String.eqb op "subscribe" then subscribe kwargs e
      else (Raise (AttributeError op), e)
  end.

#[global] Instance boto : Boto state := {
  client svc e := up e svc;
  api := request
}.

Definition all_up : service -> bool := fun _ => true.

Definition empty : state := State all_up ∅ ∅ ∅ 0 ∅.

(** A world around an emulator state: given snapshot files, one line
    of console input, a fixed random source. *)
Definition world_of (e : state) (files : gmap string file)
    (line : string) : world state :=
  World e files [line] (fun n => n) 0%nat [].

End LocalStack.

(** ** A topic service that answers from a catalogue *)

(** The script reads the entries of a subscription listing as they
    come.  The emulated service lists an entry with the five fields
    ['SubscriptionArn'], ['Owner'], ['Protocol'], ['Endpoint'] and
    ['TopicArn'] only; this service answers the two topic listings from
    a fixed catalogue of topic ARNs, each with the entries of its
    subscription listing as any values, so that [backup_sns] can be run
    on entries of every shape.  It has no other request. *)
Module Catalog.

Definition state : Type := list (string * list pyval).

Fixpoint subscriptions_of (arn : string) (c : state) : option (list pyval) :=
  match c with
  | [] => None
  | (a, subs) :: c' =>
      if String.eqb arn a then Some subs else subscriptions_of arn c'
  end.

Definition request (svc : service) (op : string)
    (kwargs : list (string * pyval)) (c : state) : result pyval * state :=
  match svc with
  | SNS =>
      if String.eqb op "list_topics"
      then (Ok (PDict [("Topics",
                        PList (map (fun t => PDict [("TopicArn", PStr (fst t))])
                                   c))]), c)
      else if String.eqb op "list_subscriptions_by_topic"
      then match dict_get "TopicArn" kwargs with
           | Some (PStr arn) =>
               match subscriptions_of arn c with
               | Some subs => (Ok (PDict [("Subscriptions", PList subs)]), c)
               | None => (Raise (ClientError "NotFound"), c)
               end
           | _ => (Raise ParamValidationError, c)
           end
      else (Raise (AttributeError op), c)
  | _ => (Raise (AttributeError op), c)
  end.

#[global] Instance boto : Boto state := {
  client svc c := true;
  api := request
}.

(** A world around a catalogue: no file, no input. *)
Definition world_of (c : state) : world state :=
  World c ∅ [] (fun n => n) 0%nat [].

End Catalog.

(** ** A stopped emulator *)

(** [boto3.client] opens no connection: with nothing listening at the
    endpoint it still hands out a client, and it is the first request
    that raises, with a connection error. *)
Module Stopped.

Definition state : Type := unit.

#[global] Instance boto : Boto state := {
  client svc e := true;
  api svc op kwargs e := (Raise EndpointConnectionError, e)
}.

Definition world_of (files : gmap string file) (line : string)
  : world state :=
  World tt files [line] (fun n => n) 0%nat [].

End Stopped.

(** * Vocabulary of the properties *)

(** [steady P m]: running [m] writes no snapshot file and only adds
    events that satisfy [P] to the log, whatever its outcome. *)
Definition steady {E A} (P : event -> Prop) (m : M E A) : Prop :=
  forall w,
    fs (snd (m w)) = fs w /\
    exists evs, out (snd (m w)) = out w ++ evs /\ Forall P evs.

(** ** Snapshots used as examples *)

Definition topic_a : string := "arn:aws:sns:us-east-1:000000000000:alerts".

(** A subscription record as [backup_sns] writes it. *)
Definition saved_sub : pyval :=
  PDict [("topicARN", PStr topic_a);
         ("subARN", PStr (topic_a +:+ ":1"));
         ("protocol", PStr "sqs");
         ("endpoint", PStr "arn:aws:sqs:us-east-1:000000000000:inbox")].

Definition saved_object : pyval :=
  PDict [("bucket_name", PStr "photos"); ("object_key", PStr "cat.png");
         ("object_body", PBytes [x89; x50])].

(** A working directory left by a backup that saw one topic with one
    subscription, no queue, and no bucket but (edited in) one object. *)
Definition sample_files : gmap string file :=
  <["sns_subs.pickle" := Pickle (PList [saved_sub])]>
    (<["sns_topics.pickle" := Pickle (PList [PStr topic_a])]>
       (<["sqs_messages.pickle" := Pickle (PList [])]>
          (<["sqs_queues.pickle" := Pickle (PList [])]>
             (<["s3_objects.pickle" := Pickle (PList [saved_object])]>
                (<["s3_buckets.pickle" := Pickle (PList [])]> ∅))))).

Definition sample_restore : world LocalStack.state :=
  LocalStack.world_of LocalStack.empty sample_files "r".

(** ** Subscription records *)

(** The shape the spec names for dead-letter metadata: the subscription
    has a ['RawMessageDelivery'] field that is itself a mapping with a
    ['RedrivePolicy'] key.  The result is the value under that key. *)
Definition nested_redrive (subscription : pyval) : option pyval :=
  match subscription with
  | PDict d =>
      match dict_get "RawMessageDelivery" d with
      | Some (PDict raw) => dict_get "RedrivePolicy" raw
      | _ => None
      end
  | _ => None
  end.


(** The four fields every persisted subscription record has. *)
Definition plain_record (topic sub_arn protocol endpoint : pyval)
  : list (string * pyval) :=
  [("topicARN", topic); ("subARN", sub_arn);
   ("protocol", protocol); ("endpoint", endpoint)].


Definition listed_subscription : pyval :=
  LocalStack.show_subscription topic_a
    (LocalStack.Subscription (topic_a +:+ ":1") "sqs"
       "arn:aws:sqs:us-east-1:000000000000:inbox" []).











(** ** Queue names *)

(** The queue name the restore derives from a URL, and the request it
    should send for it. *)
Definition queue_name (url : string) : string :=
  default EmptyString (last (split_on "/" url)).

Definition fifo_attributes : pyval :=
  PDict [("FifoQueue", PStr "true");
         ("ContentBasedDeduplication", PStr "true")].

Definition create_request (url : string) : event :=
  if endswith (queue_name url) ".fifo"
  then ApiCall SQS "create_queue"
         [("QueueName", PStr (queue_name url)); ("Attributes", fifo_attributes)]
  else ApiCall SQS "create_queue" [("QueueName", PStr (queue_name url))].

Definition is_create_queue (ev : event) : bool :=
  match ev with
  | ApiCall SQS op _ => String.eqb op "create_queue"
  | _ => false
  end.

(** [name] is the final path segment of [url]: it has no slash, and
    [url] is [name] or ends with a slash followed by [name]. *)
Definition final_segment (url name : string) : Prop :=
  (forall a, In a (list_ascii_of_string name) -> a <> "/"%char) /\
  (url = name \/ exists prefix, url = prefix +:+ "/" +:+ name).

(** [s.join(segments)] for a one-character [s]. *)
Fixpoint join (c : ascii) (segments : list string) : string :=
  match segments with
  | [] => EmptyString
  | [seg] => seg
  | seg :: rest => seg +:+ String c (join c rest)
  end.

Definition queue_files (urls : list string) : gmap string file :=
  <["sqs_messages.pickle" := Pickle (PList [])]>
    (<["sqs_queues.pickle" := Pickle (PList (map PStr urls))]> ∅).

Definition two_queues : list string :=
  ["http://localhost:4566/000000000000/jobs";
   "http://localhost:4566/000000000000/orders.fifo"].

(** ** Object snapshots *)

(** The listing entries of the emulator and the record the backup keeps
    for one object. *)
Definition bucket_entry (b : string * gmap string (list byte)) : pyval :=
  PDict [("Name", PStr (fst b))].

Definition object_entry (o : string * list byte) : pyval :=
  PDict [("Key", PStr (fst o))].

Definition object_record (bucket : string) (o : string * list byte) : pyval :=
  PDict [("bucket_name", PStr bucket); ("object_key", PStr (fst o));
         ("object_body", PBytes (snd o))].


(** The records of the objects on the first page of a bucket's
    listing. *)
Definition listed_records (b : string * gmap string (list byte))
  : list pyval :=
  map (object_record (fst b))
      (take LocalStack.max_keys (map_to_list (snd b))).

Definition is_file_write (ev : event) : bool :=
  match ev with FileWrite _ _ => true | _ => false end.

(** One bucket with two objects and one bucket with none. *)
Definition mixed_store : LocalStack.state :=
  LocalStack.State LocalStack.all_up
    (<["docs" := <["a.txt" := [x68; x69]]> (<["b.bin" := [x00]]> ∅)]>
       (<["empty" := ∅]> ∅))
    ∅ ∅ 0 ∅.


(** The bytes stored under [key] in [bucket], if any. *)
Definition stored_object (e : LocalStack.state) (bucket key : string)
  : option (list byte) :=
  match LocalStack.s3 e !! bucket with
  | Some objs => objs !! key
  | None => None
  end.

(** ** Queue snapshots *)




(** Two queues, one of them holding three messages. *)
Definition busy_queues : LocalStack.state :=
  LocalStack.State LocalStack.all_up ∅
    (<[LocalStack.queue_url "jobs" :=
         LocalStack.Queue "jobs" []
           [("h1", "resize"); ("h2", "upload"); ("h3", "resize")]]>
       (<[LocalStack.queue_url "idle" := LocalStack.Queue "idle" [] []]> ∅))
    ∅ 3 ∅.

(** ** What a run may touch *)

Definition snapshot_files : list string :=
  ["s3_buckets.pickle"; "s3_objects.pickle"; "sqs_queues.pickle";
   "sqs_messages.pickle"; "sns_topics.pickle"; "sns_subs.pickle"].

Definition is_snapshot_file (f : string) : bool :=
  existsb (String.eqb f) snapshot_files.

(** The events of a backup: console lines, writes of the six snapshot
    files, listing and reading requests, and the one request that
    changes the source, [delete_message]. *)
Definition backup_event (ev : event) : bool :=
  match ev with
  | Print _ => true
  | FileWrite f _ => is_snapshot_file f
  | ApiCall S3 op _ =>
      existsb (String.eqb op) ["list_buckets"; "list_objects"; "get_object"]
  | ApiCall SQS op _ =>
      existsb (String.eqb op)
        ["list_queues"; "get_queue_attributes"; "receive_message";
         "delete_message"]
  | ApiCall SNS op _ =>
      existsb (String.eqb op) ["list_topics"; "list_subscriptions_by_topic"]
  | _ => false
  end.

(** The events of a restore: console lines, reads of the six snapshot
    files, and the six creating requests. *)
Definition restore_event (ev : event) : bool :=
  match ev with
  | Print _ => true
  | FileRead f => is_snapshot_file f
  | ApiCall S3 op _ => existsb (String.eqb op) ["create_bucket"; "put_object"]
  | ApiCall SQS op _ => existsb (String.eqb op) ["create_queue"; "send_message"]
  | ApiCall SNS op _ => existsb (String.eqb op) ["create_topic"; "subscribe"]
  | _ => false
  end.

(** [confined F P m]: running [m] leaves every file outside [F] as it
    was and only adds events that satisfy [P] to the log, whatever its
    outcome. *)
Definition confined {E A} (F : string -> bool) (P : event -> Prop)
    (m : M E A) : Prop :=
  forall w,
    (forall f, F f = false -> fs (snd (m w)) !! f = fs w !! f) /\
    exists evs, out (snd (m w)) = out w ++ evs /\ Forall P evs.

(** ** Random strings, the menu, missing clients *)

Definition is_ascii_letter (a : ascii) : bool :=
  existsb (Ascii.eqb a) (list_ascii_of_string ascii_letters).

(** What [main] logs up to and including the prompt, and its last line. *)
Definition menu_events : list event :=
  [Print [PStr (nl +:+ nl +:+ nl)];
   Print [PStr "What would you like to do?"];
   Print [PStr "    [b]ackup LocalStack state"];
   Print [PStr ("    [r]estore LocalStack state" +:+ nl)];
   Prompt "Please enter your choice 'b' or 'r': "].

Definition closing_event : event :=
  Print [PStr (nl +:+ "Thanks for using the LocalStack backup tool!" +:+ nl)].

(** The world once the menu is shown and the first line of input is
    taken. *)
Definition after_prompt {E} (w : world E) (rest : list string) : world E :=
  World (emu w) (fs w) rest (rand w) (draws w) (out w ++ menu_events).

(** The end of [main] after the chosen action: the closing line, unless
    the action raised. *)
Definition and_close {E A} (r : result A * world E) : result unit * world E :=
  match r with
  | (Ok _, w') =>
      (Ok tt,
       World (emu w') (fs w') (stdin w') (rand w') (draws w')
             (out w' ++ [closing_event]))
  | (Raise e, w') => (Raise e, w')
  end.

(** A setting in which [boto3.client] raises for every service: the
    library cannot build a client (a profile it is told to use is not
    there, say).  This is not what a stopped emulator gives, see
    [Stopped]. *)
Definition no_client : LocalStack.state :=
  LocalStack.State (fun _ => false) ∅ ∅ ∅ 0 ∅.

(** ** Requests of a restore *)

Definition is_request (ev : event) : bool :=
  match ev with ApiCall _ _ _ => true | _ => false end.

(** The requests among the events of a run, in order. *)
Definition requests (evs : list event) : list event :=
  List.filter is_request evs.

(** [name] is what follows the last [c] of [s] (all of [s] when it has
    no [c]). *)
Definition final_part (c : ascii) (s name : string) : Prop :=
  (forall a, In a (list_ascii_of_string name) -> a <> c) /\
  (s = name \/ exists prefix, s = prefix +:+ String c name).

Definition topic_name (arn : string) : string :=
  default EmptyString (last (split_on ":" arn)).

Definition create_topic_request (arn : string) : event :=
  ApiCall SNS "create_topic" [("Name", PStr (topic_name arn))].

Definition create_bucket_request (bucket : pyval) : event :=
  ApiCall S3 "create_bucket" [("Bucket", bucket)].

(** An object record of the snapshot, as a triple bucket, key, body. *)
Definition saved_object_record (o : pyval * pyval * pyval) : pyval :=
  PDict [("bucket_name", fst (fst o)); ("object_key", snd (fst o));
         ("object_body", snd o)].

Definition put_object_request (o : pyval * pyval * pyval) : event :=
  ApiCall S3 "put_object"
    [("Bucket", fst (fst o)); ("Key", snd (fst o)); ("Body", snd o)].

(** A message record of the snapshot, as a pair queue URL, body. *)
Definition saved_message (m : string * pyval) : pyval :=
  PDict [("queue", PStr (fst m)); ("body", snd m)].

Definition three_letters (s : string) : Prop :=
  String.length s = 3%nat /\
  forallb is_ascii_letter (list_ascii_of_string s) = true.

(** The request that sends [m] again: two random three-letter identifiers
    for a URL that ends in [.fifo], none otherwise. *)
Definition sends_message (m : string * pyval) (ev : event) : Prop :=
  if endswith (fst m) ".fifo"
  then exists group dedup,
         three_letters group /\ three_letters dedup /\
         ev = ApiCall SQS "send_message"
                [("QueueUrl", PStr (fst m)); ("MessageBody", snd m);
                 ("MessageGroupId", PStr group);
                 ("MessageDeduplicationId", PStr dedup)]
  else ev = ApiCall SQS "send_message"
              [("QueueUrl", PStr (fst m)); ("MessageBody", snd m)].

Definition is_send_message (ev : event) : bool :=
  match ev with
  | ApiCall SQS op _ => String.eqb op "send_message"
  | _ => false
  end.

Definition is_create_topic (ev : event) : bool :=
  match ev with
  | ApiCall SNS op _ => String.eqb op "create_topic"
  | _ => false
  end.

(** Snapshots for the examples. *)
Definition topic_files (arns : list string) : gmap string file :=
  <["sns_subs.pickle" := Pickle (PList [])]>
    (<["sns_topics.pickle" := Pickle (PList (map PStr arns))]> ∅).

Definition two_topics : list string :=
  ["arn:aws:sns:us-east-1:000000000000:alerts";
   "arn:aws:sns:us-east-1:000000000000:billing"].

Definition store_files (names : list pyval)
    (objs : list (pyval * pyval * pyval)) : gmap string file :=
  <["s3_objects.pickle" := Pickle (PList (map saved_object_record objs))]>
    (<["s3_buckets.pickle" := Pickle (PList names)]> ∅).

(** A snapshot with an object whose bucket is not in the bucket list. *)
Definition stray_object_files : gmap string file :=
  store_files [PStr "docs"]
    [(PStr "docs", PStr "a.txt", PBytes [x68]);
     (PStr "gone", PStr "b.txt", PBytes [x69])].

Definition message_files (msgs : list (string * pyval)) : gmap string file :=
  <["sqs_messages.pickle" := Pickle (PList (map saved_message msgs))]>
    (<["sqs_queues.pickle" := Pickle (PList (map PStr two_queues))]> ∅).

Definition two_messages : list (string * pyval) :=
  [("http://localhost:4566/000000000000/jobs", PStr "resize");
   ("http://localhost:4566/000000000000/orders.fifo", PStr "order 1")].

(** ** Queue round trips *)





(** ** Topic round trips *)

(** The record the backup keeps for a subscription as the emulator
    lists it. *)
Definition subscription_record (topic : string)
    (s : LocalStack.subscription) : pyval :=
  PDict (plain_record (PStr topic) (PStr (LocalStack.sub_arn s))
           (PStr (LocalStack.sub_protocol s))
           (PStr (LocalStack.sub_endpoint s))).

Definition topic_records (t : string * list LocalStack.subscription)
  : list pyval :=
  map (subscription_record (fst t)) (snd t).

(** The topics fit one page of the topic listing, and the
    subscriptions of each topic one page of its subscription listing. *)
Definition within_pages (e : LocalStack.state) : Prop :=
  (size (LocalStack.sns e) <= LocalStack.page_size)%nat /\
  forall arn subs,
    LocalStack.sns e !! arn = Some subs ->
    (length subs <= LocalStack.page_size)%nat.

(** Every topic is filed under the ARN the emulator gives to the final
    part of its own ARN. *)
Definition topics_filed (e : LocalStack.state) : Prop :=
  forall arn subs,
    LocalStack.sns e !! arn = Some subs ->
    arn = LocalStack.topic_arn (topic_name arn).

(** The topics of [target] after the topics of [src] are created in it:
    a topic that was there is kept with its subscriptions, a topic of
    [src] that was not is there with none. *)
Definition topics_created (src target : LocalStack.state) (arn : string)
  : option (list LocalStack.subscription) :=
  match LocalStack.sns target !! arn with
  | Some subs => Some subs
  | None => match LocalStack.sns src !! arn with
            | Some _ => Some []
            | None => None
            end
  end.

Definition no_subscription (e : LocalStack.state) : bool :=
  forallb (fun t => match snd t with [] => true | _ => false end)
          (map_to_list (LocalStack.sns e)).

(** Two topics, the first with one subscription. *)
Definition busy_topics : LocalStack.state :=
  LocalStack.State LocalStack.all_up ∅ ∅
    (<[LocalStack.topic_arn "alerts" :=
         [LocalStack.Subscription (LocalStack.topic_arn "alerts" +:+ ":0")
            "sqs" "arn:aws:sqs:us-east-1:000000000000:inbox" []]]>
       (<[LocalStack.topic_arn "billing" := []]> ∅))
    1 ∅.

(** ** What a step leaves alone in the environment *)




(** ** Files a faulting step leaves behind *)

(** The file [f] holds no new snapshot in [w']: it is as it was in [w],
    or it was opened for writing and left empty. *)
Definition unrenewed {E} (f : string) (w w' : world E) : Prop :=
  fs w' !! f = fs w !! f \/ fs w' !! f = Some Truncated.

(** [guarded f m]: when [m] raises, [f] holds no new snapshot. *)
Definition guarded {E A} (f : string) (m : M E A) : Prop :=
  forall w, is_ok (fst (m w)) = false -> unrenewed f w (snd (m w)).

(** Every file but [f]. *)
Definition other_than (f g : string) : bool := negb (String.eqb g f).

(** * Properties *)

(** ** Running the monad *)

Section Run.
Context {E : Type} `{Boto E}.

Lemma bind_ok {A B} (m : M E A) (k : A -> M E B) w a w' :
  m w = (Ok a, w') -> (m ≫= k) w = k a w'.
Proof. intros Hm. unfold mbind, M_mbind, M_bind. now rewrite Hm. Qed.

Lemma bind_raise {A B} (m : M E A) (k : A -> M E B) w e w' :
  m w = (Raise e, w') -> (m ≫= k) w = (Raise e, w').
Proof. intros Hm. unfold mbind, M_mbind, M_bind. now rewrite Hm. Qed.


Lemma bind_lift_ok {A B} (r : result A) (k : A -> M E B) w a :
  r = Ok a -> (lift r ≫= k) w = k a w.
Proof. intros ->. reflexivity. Qed.


Lemma connect_up svc complaint w :
  client svc (emu w) = true -> connect svc complaint w = (Ok true, w).
Proof.
  intros Hup. unfold connect, try_except, boto3_client.
  unfold mbind, M_mbind, M_bind. now rewrite Hup.
Qed.

Lemma connect_down svc complaint w :
  client svc (emu w) = false ->
  connect svc complaint w = (Ok false, emit (Print [PStr complaint]) w).
Proof.
  intros Hup. unfold connect, try_except, boto3_client.
  unfold mbind, M_mbind, M_bind. now rewrite Hup.
Qed.

Lemma call_eq svc op kwargs (w : world E) r e' :
  api svc op kwargs (emu w) = (r, e') ->
  call svc op kwargs w
    = (r, World e' (fs w) (stdin w) (rand w) (draws w)
                (out w ++ [ApiCall svc op kwargs])).
Proof. intros Hr. unfold call. simpl. now rewrite Hr. Qed.

Lemma pickle_dump_eq f v (w : world E) :
  picklable v = true ->
  pickle_dump f v w
    = (Ok tt, World (emu w) (<[f := Pickle v]> (fs w)) (stdin w) (rand w)
                    (draws w) (out w ++ [FileWrite f v])).
Proof. intros Hv. unfold pickle_dump. now rewrite Hv. Qed.

End Run.

(** ** The entry point *)

(** C8: an input line that is neither [b] nor [r] once lowered makes
    [main] print the four menu lines, the prompt, the invalid-choice
    line and the closing line, and do nothing else: the emulator and
    the snapshot files are as before, no request is sent, no file is
    read or written. *)
Theorem main_invalid_choice {E : Type} `{Boto E}
    (w : world E) (line : string) (rest : list string) :
  stdin w = line :: rest ->
  lower line <> "b" ->
  lower line <> "r" ->
  main w =
    (Ok tt,
     World (emu w) (fs w) rest (rand w) (draws w)
       (out w ++
        [Print [PStr (nl +:+ nl +:+ nl)];
         Print [PStr "What would you like to do?"];
         Print [PStr "    [b]ackup LocalStack state"];
         Print [PStr ("    [r]estore LocalStack state" +:+ nl)];
         Prompt "Please enter your choice 'b' or 'r': ";
         Print [PStr (nl +:+ "***Invalid choice - exiting***")];
         Print [PStr (nl +:+ "Thanks for using the LocalStack backup tool!"
                         +:+ nl)]])).
Proof.
  intros Hin Hb Hr.
  apply String.eqb_neq in Hb, Hr.
  unfold main, mbind, M_mbind, M_bind, print, input, emit; simpl.
  rewrite Hin; simpl. rewrite Hb, Hr; simpl.
  repeat rewrite <- app_assoc. reflexivity.
Qed.

Lemma main_invalid_choice_witness :
  lower "Q" <> "b" /\ lower "Q" <> "r" /\
  out (snd (main (LocalStack.world_of LocalStack.empty ∅ "Q"))) =
    [Print [PStr (nl +:+ nl +:+ nl)];
     Print [PStr "What would you like to do?"];
     Print [PStr "    [b]ackup LocalStack state"];
     Print [PStr ("    [r]estore LocalStack state" +:+ nl)];
     Prompt "Please enter your choice 'b' or 'r': ";
     Print [PStr (nl +:+ "***Invalid choice - exiting***")];
     Print [PStr (nl +:+ "Thanks for using the LocalStack backup tool!"
                     +:+ nl)]].
Proof.
  split; [discriminate | split; [discriminate |]].
  rewrite (main_invalid_choice
             (LocalStack.world_of LocalStack.empty ∅ "Q") "Q" []);
    [reflexivity | reflexivity | discriminate | discriminate].
Defined.

(** ** What a block leaves alone *)

Section Steady.
Context {E : Type} `{Boto E}.
Variable P : event -> Prop.

Lemma steady_ret {A} (a : A) : steady P (mret a : M E A).
Proof. intros w. split; [reflexivity |]. exists []. now rewrite app_nil_r. Qed.

Lemma steady_lift {A} (r : result A) : steady P (lift r : M E A).
Proof. intros w. split; [reflexivity |]. exists []. now rewrite app_nil_r. Qed.

Lemma steady_bind {A B} (m : M E A) (k : A -> M E B) :
  steady P m -> (forall a, steady P (k a)) -> steady P (m ≫= k).
Proof.
  intros Hm Hk w. unfold mbind, M_mbind, M_bind.
  destruct (Hm w) as [Hfs [evs [Hout Hall]]].
  destruct (m w) as [[a | e] w1]; simpl in *.
  - destruct (Hk a w1) as [Hfs' [evs' [Hout' Hall']]].
    split; [congruence |].
    exists (evs ++ evs'). rewrite Hout', Hout, app_assoc.
    split; [reflexivity | now apply Forall_app].
  - split; [assumption |]. now exists evs.
Qed.

Lemma steady_emit {A} (a : A) (ev : event) :
  P ev -> steady P (fun w => (Ok a, emit ev w) : result A * world E).
Proof.
  intros Hev w. split; [reflexivity |]. exists [ev]. split; [reflexivity |].
  now constructor.
Qed.

Lemma steady_print (parts : list pyval) :
  P (Print parts) -> steady P (print parts : M E unit).
Proof. apply steady_emit. Qed.

Lemma steady_call svc op kwargs :
  P (ApiCall svc op kwargs) -> steady P (call svc op kwargs : M E pyval).
Proof.
  intros Hev w. unfold call.
  destruct (api svc op kwargs (emu (emit (ApiCall svc op kwargs) w)))
    as [r e'] eqn:Hr.
  simpl. split; [reflexivity |]. exists [ApiCall svc op kwargs].
  split; [reflexivity | now constructor].
Qed.

Lemma steady_load f :
  P (FileRead f) -> steady P (pickle_load f : M E pyval).
Proof.
  intros Hev w. unfold pickle_load.
  destruct (fs w !! f) as [[v |] |]; simpl.
  - split; [reflexivity |]. exists [FileRead f]. split; [reflexivity | now constructor].
  - split; [reflexivity |]. exists [FileRead f]. split; [reflexivity | now constructor].
  - split; [reflexivity |]. exists []. now rewrite app_nil_r.
Qed.

Lemma steady_connect svc complaint :
  P (Print [PStr complaint]) -> steady P (connect svc complaint : M E bool).
Proof.
  intros Hev w. destruct (client svc (emu w)) eqn:Hup.
  - rewrite connect_up by assumption. simpl. split; [reflexivity |].
    exists []. now rewrite app_nil_r.
  - rewrite connect_down by assumption. simpl. split; [reflexivity |].
    exists [Print [PStr complaint]]. split; [reflexivity | now constructor].
Qed.

Lemma steady_random letters : steady P (random_choice letters : M E ascii).
Proof. intros w. split; [reflexivity |]. exists []. simpl. now rewrite app_nil_r. Qed.

Lemma steady_gen_rand_str n : steady P (gen_rand_str n : M E string).
Proof.
  induction n as [| n IH]; simpl.
  - apply steady_ret.
  - apply steady_bind; [apply steady_random | intros c].
    apply steady_bind; [exact IH | intros s]. apply steady_ret.
Qed.

Lemma steady_for_each {A} (l : list A) (body : A -> M E unit) :
  (forall x, steady P (body x)) -> steady P (for_each l body).
Proof.
  intros Hbody. induction l as [| x l IH]; simpl.
  - apply steady_ret.
  - apply steady_bind; [apply Hbody | intros _; exact IH].
Qed.

Lemma steady_for_acc {A B} (l : list A) (body : A -> B -> M E B) :
  (forall x acc, steady P (body x acc)) ->
  forall acc, steady P (for_acc l acc body).
Proof.
  intros Hbody. induction l as [| x l IH]; intros acc; simpl.
  - apply steady_ret.
  - apply steady_bind; [apply Hbody | intros acc'; apply IH].
Qed.

End Steady.

(** Breaks a block into its statements; what remains are the
    conditions on the events it logs. *)
Ltac steady_step :=
  match goal with
  | |- steady _ (mbind _ _) => apply steady_bind; [| intros ?]
  | |- steady _ (mret _) => apply steady_ret
  | |- steady _ (lift _) => apply steady_lift
  | |- steady _ (print _) => apply steady_print
  | |- steady _ (call _ _ _) => apply steady_call
  | |- steady _ (pickle_load _) => apply steady_load
  | |- steady _ (connect _ _) => apply steady_connect
  | |- steady _ (gen_rand_str _) => apply steady_gen_rand_str
  | |- steady _ (for_each _ _) => apply steady_for_each; intros ?
  | |- steady _ (for_acc _ _ _) => apply steady_for_acc; intros ? ?
  | |- steady _ (if ?b then _ else _) => destruct b
  end.

(** ** Shapes of pickled values *)

Lemma py_len_nonneg v k : py_len v = Ok k -> 0 <= k.
Proof. destruct v; simpl; intros [= <-]; lia. Qed.

Lemma py_iter_nonempty v k :
  py_len v = Ok k -> 0 < k -> exists x l, py_iter v = Ok (x :: l).
Proof.
  destruct v as [| | | s | b | | l | d]; simpl; try discriminate;
    intros [= <-] Hk.
  - destruct s; simpl in *; [lia | eauto].
  - destruct b; simpl in *; [lia | eauto].
  - destruct l; simpl in *; [lia | eauto].
  - destruct d; simpl in *; [lia | eauto].
Qed.


Lemma py_iter_empty v : py_len v = Ok 0 -> py_iter v = Ok [].
Proof.
  destruct v as [| | | s | b | | l | d]; simpl; try discriminate;
    intros [= Hk].
  - now destruct s.
  - now destruct b.
  - now destruct l.
  - now destruct d.
Qed.

(** ** Object storage restore *)

(** C5: when the persisted bucket-name sequence is empty, [restore_s3]
    reads the bucket file and stops: the object file is not opened and
    no request (so no [put_object]) is sent, whatever the object file
    holds. *)
Theorem restore_s3_empty_bucket_list {E : Type} `{Boto E}
    (w : world E) (v : pyval) :
  client S3 (emu w) = true ->
  fs w !! "s3_buckets.pickle" = Some (Pickle v) ->
  py_len v = Ok 0 ->
  restore_s3 w = (Ok false, emit (FileRead "s3_buckets.pickle") w).
Proof.
  intros Hup Hfile Hlen. unfold restore_s3.
  rewrite (bind_ok _ _ _ _ _ (connect_up S3 _ w Hup)).
  unfold mbind, M_mbind, M_bind, pickle_load, lift. rewrite Hfile, Hlen.
  reflexivity.
Qed.

Lemma restore_s3_empty_bucket_list_witness :
  fs sample_restore !! "s3_objects.pickle" = Some (Pickle (PList [saved_object])) /\
  restore_s3 sample_restore =
    (Ok false, emit (FileRead "s3_buckets.pickle") sample_restore).
Proof.
  split; [reflexivity |].
  apply (restore_s3_empty_bucket_list sample_restore (PList []));
    reflexivity.
Defined.

(** ** Topic restore *)

Section TopicRestore.
Context {E : Type} `{Boto E}.

Lemma restore_topics_steady : steady (fun _ => True) (restore_topics : M E unit).
Proof.
  unfold restore_topics, restore_topic.
  repeat (steady_step; try exact I).
Qed.

Lemma restore_subscriptions_first_fault member (w : world E) v k x l e :
  fs w !! "sns_subs.pickle" = Some (Pickle v) ->
  py_len v = Ok k -> 0 < k ->
  py_iter v = Ok (x :: l) ->
  (forall w0, restore_subscription member x w0 = (Raise e, w0)) ->
  restore_subscriptions member w =
    (Raise e,
     emit (Print [PStr "Restoring "; PInt k; PStr " SNS subscriptions"])
          (emit (FileRead "sns_subs.pickle") w)).
Proof.
  intros Hfile Hlen Hk Hit Hbody.
  unfold restore_subscriptions, mbind, M_mbind, M_bind, pickle_load, lift.
  rewrite Hfile, Hlen.
  assert ((0 <? k) = true) as -> by (apply Z.ltb_lt; lia).
  simpl. rewrite Hit. simpl.
  unfold mbind, M_mbind, M_bind. now rewrite Hbody.
Qed.

Lemma restore_subscriptions_has_key (w : world E) v k :
  fs w !! "sns_subs.pickle" = Some (Pickle v) ->
  py_len v = Ok k -> 0 < k ->
  restore_subscriptions py_has_key w =
    (Raise (AttributeError "has_key"),
     emit (Print [PStr "Restoring "; PInt k; PStr " SNS subscriptions"])
          (emit (FileRead "sns_subs.pickle") w)).
Proof.
  intros Hfile Hlen Hk.
  destruct (py_iter_nonempty v k Hlen Hk) as [x [l Hit]].
  apply (restore_subscriptions_first_fault _ _ v k x l); auto.
Qed.

End TopicRestore.

(** C3: with a client at hand and a non-empty subscription snapshot,
    every run of [restore_sns] ends in a fault; and once the topics are
    recreated the fault is the [AttributeError] of the [has_key] probe,
    raised on the first record, before any [subscribe] request. *)
Theorem restore_sns_has_key_fault {E : Type} `{Boto E}
    (w : world E) (v : pyval) (k : Z) :
  client SNS (emu w) = true ->
  fs w !! "sns_subs.pickle" = Some (Pickle v) ->
  py_len v = Ok k ->
  0 < k ->
  (exists e w', restore_sns w = (Raise e, w')) /\
  (forall w1, restore_topics w = (Ok tt, w1) ->
     restore_sns w =
       (Raise (AttributeError "has_key"),
        emit (Print [PStr "Restoring "; PInt k; PStr " SNS subscriptions"])
             (emit (FileRead "sns_subs.pickle") w1))).
Proof.
  intros Hup Hfile Hlen Hk.
  assert (forall w1, restore_topics w = (Ok tt, w1) ->
     restore_sns w =
       (Raise (AttributeError "has_key"),
        emit (Print [PStr "Restoring "; PInt k; PStr " SNS subscriptions"])
             (emit (FileRead "sns_subs.pickle") w1))) as Hreach.
  { intros w1 Htopics.
    unfold restore_sns, restore_sns_with.
    rewrite (bind_ok _ _ _ _ _ (connect_up SNS _ w Hup)).
    assert (fs w1 !! "sns_subs.pickle" = Some (Pickle v)) as Hfile1.
    { destruct (restore_topics_steady w) as [Hfs _].
      rewrite Htopics in Hfs. simpl in Hfs. now rewrite Hfs. }
    unfold mbind at 1, M_mbind, M_bind.
    unfold mbind at 1, M_mbind, M_bind. rewrite Htopics.
    now rewrite (restore_subscriptions_has_key w1 v k Hfile1 Hlen Hk). }
  split; [| exact Hreach].
  destruct (restore_topics w) as [[[] | e] w1] eqn:Htopics.
  - rewrite (Hreach w1 eq_refl). eauto.
  - unfold restore_sns, restore_sns_with.
    rewrite (bind_ok _ _ _ _ _ (connect_up SNS _ w Hup)).
    unfold mbind, M_mbind, M_bind. rewrite Htopics. eauto.
Qed.

Lemma restore_sns_has_key_fault_witness :
  fst (restore_sns sample_restore) = Raise (AttributeError "has_key") /\
  List.filter (fun ev => match ev with ApiCall _ _ _ => true | _ => false end)
              (out (snd (restore_sns sample_restore))) =
    [ApiCall SNS "create_topic" [("Name", PStr "alerts")]].
Proof.
  assert (client SNS (emu sample_restore) = true) as Hup by reflexivity.
  assert (fs sample_restore !! "sns_subs.pickle"
          = Some (Pickle (PList [saved_sub]))) as Hfile by reflexivity.
  destruct (restore_sns_has_key_fault sample_restore (PList [saved_sub]) 1
              Hup Hfile eq_refl eq_refl) as [_ Hreach].
  assert (restore_topics sample_restore
          = (Ok tt, snd (restore_topics sample_restore))) as Htopics
    by (vm_compute; reflexivity).
  rewrite (Hreach _ Htopics). split; vm_compute; reflexivity.
Defined.

(** ** Subscription records, written and read *)

(** What [backup_subscription] returns when it returns: the four plain
    fields, and ['DLQARN'] after them exactly for the nested shape. *)
Lemma backup_subscription_shape (topic subscription record : pyval) :
  backup_subscription topic subscription = Ok record ->
  exists sub_arn protocol endpoint,
    py_getitem subscription "SubscriptionArn" = Ok sub_arn /\
    py_getitem subscription "Protocol" = Ok protocol /\
    py_getitem subscription "Endpoint" = Ok endpoint /\
    match nested_redrive subscription with
    | Some policy =>
        exists arn,
          py_getitem policy "deadLetterTargetArn" = Ok arn /\
          record = PDict (plain_record topic sub_arn protocol endpoint
                          ++ [("DLQARN", arn)])
    | None => record = PDict (plain_record topic sub_arn protocol endpoint)
    end.
Proof.
  unfold backup_subscription, nested_redrive.
  destruct subscription as [| | | | | | | d]; simpl; try discriminate.
  destruct (dict_get "SubscriptionArn" d) as [a |]; [| discriminate].
  destruct (dict_get "Protocol" d) as [p |]; [| discriminate].
  destruct (dict_get "Endpoint" d) as [e |]; [| discriminate].
  unfold dict_has.
  destruct (dict_get "RawMessageDelivery" d) as [raw |].
  - intros Hrec. exists a, p, e. repeat split.
    destruct raw as [| | | s | | body | l | r]; simpl in Hrec;
      try discriminate.
    + destruct (is_substring "RedrivePolicy" s); [discriminate |].
      now injection Hrec as <-.
    + now injection Hrec as <-.
    + destruct (existsb _ l); [discriminate |]. now injection Hrec as <-.
    + unfold dict_has in Hrec.
      destruct (dict_get "RedrivePolicy" r) as [policy |].
      * destruct (py_getitem policy "deadLetterTargetArn") as [arn |];
          [| discriminate].
        injection Hrec as <-. now exists arn.
      * now injection Hrec as <-.
  - intros [= <-]. now exists a, p, e.
Qed.



Section ListedSubscriptions.
Context {E : Type} `{Boto E}.




Variable arns : list string.
Variable subs_of : string -> list pyval.



End ListedSubscriptions.







(** The step returns on the subscriptions the service lists: the three
    fields present, and the raw-delivery field absent, or a mapping
    whose redrive policy (if any) names its dead-letter target. *)
Lemma backup_subscription_returns topic d a p e :
  dict_get "SubscriptionArn" d = Some a ->
  dict_get "Protocol" d = Some p ->
  dict_get "Endpoint" d = Some e ->
  (dict_get "RawMessageDelivery" d = None \/
   exists raw, dict_get "RawMessageDelivery" d = Some (PDict raw) /\
     (dict_get "RedrivePolicy" raw = None \/
      exists policy arn, dict_get "RedrivePolicy" raw = Some policy /\
        py_getitem policy "deadLetterTargetArn" = Ok arn)) ->
  is_ok (backup_subscription topic (PDict d)) = true.
Proof.
  intros Ha Hp He Hraw. unfold backup_subscription. simpl.
  rewrite Ha, Hp, He. unfold dict_has.
  destruct Hraw as [-> | [raw [-> Hpol]]]; [reflexivity |].
  simpl. unfold dict_has.
  destruct Hpol as [-> | [policy [arn [-> Harn]]]]; [reflexivity |].
  now rewrite Harn.
Qed.

(** C9: a record as [backup_sns] persists it has the keys ['topicARN'],
    ['subARN'], ['protocol'], ['endpoint']; the restore loop body reads
    ['TopicARN'], ['Protocol'], ['Endpoint'].  So even with the
    membership test replaced by [in], restoring any persisted record
    raises [KeyError('TopicARN')] before a request is sent, and so does
    the whole topic restore on a snapshot that starts with such a
    record; a record spelled the way the loop reads it is subscribed. *)
Theorem restore_subscription_key_mismatch {E : Type} `{Boto E}
    (w : world E) (topic subscription record : pyval) :
  backup_subscription topic subscription = Ok record ->
  restore_subscription py_contains record w
    = (Raise (KeyError (PStr "TopicARN")), w) /\
  (forall rest w1,
     client SNS (emu w) = true ->
     fs w !! "sns_subs.pickle" = Some (Pickle (PList (record :: rest))) ->
     restore_topics w = (Ok tt, w1) ->
     restore_sns_with py_contains w
       = (Raise (KeyError (PStr "TopicARN")),
          emit (Print [PStr "Restoring ";
                       PInt (Z.of_nat (length (record :: rest)));
                       PStr " SNS subscriptions"])
               (emit (FileRead "sns_subs.pickle") w1))) /\
  (forall t p e,
     restore_subscription py_contains
       (PDict [("TopicARN", t); ("Protocol", p); ("Endpoint", e)]) w
     = (call SNS "subscribe"
             [("TopicArn", t); ("Protocol", p); ("Endpoint", e)];; mret tt) w).
Proof.
  intros Hrec.
  assert (forall w0 : world E,
            restore_subscription py_contains record w0
            = (Raise (KeyError (PStr "TopicARN")), w0)) as Hbody.
  { intros w0.
    destruct (backup_subscription_shape _ _ _ Hrec)
      as [a [p [e [_ [_ [_ Hshape]]]]]].
    destruct (nested_redrive subscription) as [policy |].
    - destruct Hshape as [arn [_ ->]]. reflexivity.
    - subst record. reflexivity. }
  split; [apply Hbody |]. split; [| reflexivity].
  intros rest w1 Hup Hfile Htopics.
  unfold restore_sns_with.
  rewrite (bind_ok _ _ _ _ _ (connect_up SNS _ w Hup)).
  assert (fs w1 !! "sns_subs.pickle" = Some (Pickle (PList (record :: rest))))
    as Hfile1.
  { destruct (restore_topics_steady w) as [Hfs _].
    rewrite Htopics in Hfs. simpl in Hfs. now rewrite Hfs. }
  unfold mbind at 1, M_mbind, M_bind.
  unfold mbind at 1, M_mbind, M_bind. rewrite Htopics.
  rewrite (restore_subscriptions_first_fault py_contains w1
             (PList (record :: rest)) (Z.of_nat (length (record :: rest)))
             record rest (KeyError (PStr "TopicARN")) Hfile1 eq_refl);
    [reflexivity | simpl; lia | reflexivity | exact Hbody].
Qed.

Lemma restore_subscription_key_mismatch_witness :
  backup_subscription (PStr topic_a) listed_subscription = Ok saved_sub /\
  restore_subscription py_contains saved_sub sample_restore
    = (Raise (KeyError (PStr "TopicARN")), sample_restore).
Proof.
  split; [reflexivity |].
  exact (proj1 (restore_subscription_key_mismatch sample_restore
                  (PStr topic_a) listed_subscription saved_sub eq_refl)).
Defined.

(** ** Backup of an empty environment *)

(** C4: on the emulator, an environment without bucket and without
    queue makes [backup] fault.  [backup_s3] ends normally and writes
    the bucket and object files, each holding the empty list; the queue
    listing of [backup_sqs] then has no ['QueueUrls'] field, and line
    115 indexes it: [KeyError('QueueUrls')].  The queue and message
    files are not written, and [backup_sns] does not run. *)
Theorem backup_empty_environment_fault (w : world LocalStack.state) :
  (forall svc, client svc (emu w) = true) ->
  LocalStack.s3 (emu w) = ∅ ->
  LocalStack.sqs (emu w) = ∅ ->
  exists w',
    backup w = (Raise (KeyError (PStr "QueueUrls")), w') /\
    emu w' = emu w /\
    fs w' =
      <["s3_objects.pickle" := Pickle (PList [])]>
        (<["s3_buckets.pickle" := Pickle (PList [])]> (fs w)) /\
    out w' =
      out w ++
      [ApiCall S3 "list_buckets" [];
       FileWrite "s3_buckets.pickle" (PList []);
       FileWrite "s3_objects.pickle" (PList []);
       ApiCall SQS "list_queues" []] /\
    fs w' !! "sqs_queues.pickle" = fs w !! "sqs_queues.pickle" /\
    fs w' !! "sqs_messages.pickle" = fs w !! "sqs_messages.pickle".
Proof.
  intros Hup Hs3 Hsqs.
  assert (api S3 "list_buckets" [] (emu w)
          = (Ok (PDict [("Buckets", PList [])]), emu w)) as Hcall1.
  { change (api S3 "list_buckets" [] (emu w))
      with (LocalStack.list_buckets (emu w)).
    unfold LocalStack.list_buckets. now rewrite Hs3, map_to_list_empty. }
  assert (forall e, LocalStack.sqs e = ∅ ->
            api SQS "list_queues" [] e = (Ok (PDict []), e)) as Hcall2.
  { intros e He.
    change (api SQS "list_queues" [] e) with (LocalStack.list_queues e).
    unfold LocalStack.list_queues. now rewrite He, map_to_list_empty. }
  eexists. split.
  - unfold backup, backup_s3, backup_sqs, mbind, M_mbind, M_bind.
    rewrite (connect_up S3 _ w (Hup S3)). cbv beta iota.
    rewrite (call_eq _ _ _ _ _ _ Hcall1). cbv beta iota.
    unfold lift.
    change (py_getitem (PDict [("Buckets", PList [])]) "Buckets")
      with (Ok (PList [])).
    cbv beta iota. simpl py_iter. cbv beta iota.
    simpl for_acc. unfold mret, M_mret, M_ret. cbv beta iota.
    rewrite !pickle_dump_eq by reflexivity. cbv beta iota.
    rewrite connect_up by apply Hup. cbv beta iota.
    erewrite call_eq by (apply Hcall2; exact Hsqs). cbv beta iota.
    change (py_getitem (PDict []) "QueueUrls")
      with (@Raise pyval (KeyError (PStr "QueueUrls"))).
    cbv beta iota. reflexivity.
  - simpl. split; [reflexivity |]. split; [reflexivity |].
    split; [now rewrite <- !app_assoc |].
    split; now rewrite !lookup_insert_ne by done.
Qed.

Lemma backup_empty_environment_fault_witness :
  exists w',
    backup (LocalStack.world_of LocalStack.empty ∅ "b")
      = (Raise (KeyError (PStr "QueueUrls")), w') /\
    fs w' !! "s3_buckets.pickle" = Some (Pickle (PList [])) /\
    fs w' !! "s3_objects.pickle" = Some (Pickle (PList [])) /\
    fs w' !! "sqs_queues.pickle" = None /\
    fs w' !! "sqs_messages.pickle" = None /\
    fs w' !! "sns_topics.pickle" = None.
Proof.
  assert (forall svc,
            client svc (emu (LocalStack.world_of LocalStack.empty ∅ "b"))
            = true) as Hup by reflexivity.
  destruct (backup_empty_environment_fault
              (LocalStack.world_of LocalStack.empty ∅ "b") Hup
              eq_refl eq_refl)
    as [w' [Hrun [_ [Hfs [_ [Hqueues Hmessages]]]]]].
  exists w'. split; [exact Hrun |].
  rewrite Hqueues, Hmessages, Hfs. repeat split.
Defined.

(** ** Strings *)

Lemma string_app_cons a (s t : string) : String a s +:+ t = String a (s +:+ t).
Proof. reflexivity. Qed.

Lemma string_app_assoc (s t u : string) : (s +:+ t) +:+ u = s +:+ (t +:+ u).
Proof.
  induction s as [| a s IH]; [reflexivity |].
  now rewrite !string_app_cons, IH.
Qed.

Lemma split_on_nonempty c s : split_on c s <> [].
Proof.
  destruct s as [| a s]; simpl; [discriminate |].
  destruct (Ascii.eqb a c); [discriminate |].
  destruct (split_on c s); discriminate.
Qed.

Lemma join_split_on c s : join c (split_on c s) = s.
Proof.
  induction s as [| a s IH]; simpl; [reflexivity |].
  destruct (Ascii.eqb a c) eqn:Hac.
  - apply Ascii.eqb_eq in Hac as ->.
    destruct (split_on c s) as [| seg rest] eqn:Hsplit;
      [now apply split_on_nonempty in Hsplit |].
    simpl. simpl in IH. now rewrite IH.
  - destruct (split_on c s) as [| seg rest] eqn:Hsplit;
      [now apply split_on_nonempty in Hsplit |].
    destruct rest as [| seg' rest]; simpl in *; now rewrite <- IH.
Qed.

Lemma split_on_no_separator c s :
  Forall (fun seg => forall a, In a (list_ascii_of_string seg) -> a <> c)
         (split_on c s).
Proof.
  induction s as [| a s IH]; simpl.
  - constructor; [intros ? [] | constructor].
  - destruct (Ascii.eqb a c) eqn:Hac.
    + constructor; [intros ? [] | exact IH].
    + apply Ascii.eqb_neq in Hac.
      destruct (split_on c s) as [| seg rest].
      * constructor; [| constructor]. intros b [<- | []]. exact Hac.
      * inversion IH as [| ? ? Hseg Hrest]; subst.
        constructor; [| exact Hrest].
        intros b [<- | Hb]; [exact Hac | now apply Hseg].
Qed.

Lemma join_last c (l : list string) x :
  last l = Some x ->
  join c l = x \/ exists prefix, join c l = prefix +:+ String c x.
Proof.
  induction l as [| seg rest IH]; [discriminate |].
  destruct rest as [| seg' rest].
  - intros [= ->]. now left.
  - intros Hlast. right.
    change (last (seg :: seg' :: rest)) with (last (seg' :: rest)) in Hlast.
    change (join c (seg :: seg' :: rest))
      with (seg +:+ String c (join c (seg' :: rest))).
    destruct (IH Hlast) as [-> | [prefix ->]].
    + now exists seg.
    + exists (seg +:+ String c prefix).
      now rewrite string_app_assoc, string_app_cons.
Qed.

Lemma queue_name_final_segment url : final_segment url (queue_name url).
Proof.
  unfold final_segment, queue_name.
  destruct (last (split_on "/" url)) as [name |] eqn:Hlast.
  - simpl. split.
    + pose proof (split_on_no_separator "/" url) as Hall.
      rewrite Forall_forall in Hall. apply Hall.
      apply last_Some in Hlast as [l' Hl']. rewrite Hl'.
      apply elem_of_app. right. now apply list_elem_of_singleton.
    + pose proof (join_split_on "/" url) as Hjoin.
      destruct (join_last "/" _ _ Hlast) as [Heq | [prefix Heq]];
        rewrite Heq in Hjoin; [left | right; exists prefix];
        symmetry; exact Hjoin.
  - apply last_None in Hlast. now apply split_on_nonempty in Hlast.
Qed.

Lemma substring_whole s : substring 0 (String.length s) s = s.
Proof. induction s as [| a s IH]; simpl; [reflexivity | now rewrite IH]. Qed.

Lemma substring_cut s : forall n,
  (n <= String.length s)%nat ->
  s = substring 0 n s +:+ substring n (String.length s - n) s.
Proof.
  induction s as [| a s IH]; intros [| n] Hn; simpl in *;
    try reflexivity; try lia.
  - now rewrite substring_whole.
  - rewrite string_app_cons. f_equal. apply IH. lia.
Qed.

Lemma substring_app_skip (p t : string) m :
  substring (String.length p) m (p +:+ t) = substring 0 m t.
Proof.
  induction p as [| a p IH]; [reflexivity |].
  rewrite string_app_cons. simpl. exact IH.
Qed.

Lemma string_length_app (p t : string) :
  String.length (p +:+ t) = (String.length p + String.length t)%nat.
Proof.
  induction p as [| a p IH]; [reflexivity |].
  rewrite string_app_cons. simpl. now rewrite IH.
Qed.

Lemma endswith_spec s suf :
  endswith s suf = true <-> exists stem, s = stem +:+ suf.
Proof.
  unfold endswith. rewrite andb_true_iff, Nat.leb_le, String.eqb_eq. split.
  - intros [Hle Hsub].
    exists (substring 0 (String.length s - String.length suf) s).
    pose proof (substring_cut s (String.length s - String.length suf))
      as Hcut.
    replace (String.length s - (String.length s - String.length suf))%nat
      with (String.length suf) in Hcut by lia.
    rewrite Hsub in Hcut. apply Hcut. lia.
  - intros [stem ->]. rewrite string_length_app. split; [lia |].
    replace (String.length stem + String.length suf - String.length suf)%nat
      with (String.length stem) by lia.
    rewrite substring_app_skip. apply substring_whole.
Qed.

(** ** Queue restore *)

Lemma py_index_last (segments : list string) name :
  last segments = Some name ->
  py_index (PList (map PStr segments)) (-1) = Ok (PStr name).
Proof.
  intros Hlast. unfold py_index. rewrite length_map.
  assert (length segments <> 0%nat) as Hlen
    by (destruct segments; [discriminate | simpl; lia]).
  assert ((-1 <? 0) = true) as -> by reflexivity.
  assert ((0 <=? -1 + Z.of_nat (length segments)) = true) as ->
    by (apply Z.leb_le; lia).
  assert ((-1 + Z.of_nat (length segments) <? Z.of_nat (length segments))
          = true) as -> by (apply Z.ltb_lt; lia).
  simpl andb. cbv iota.
  replace (Z.to_nat (-1 + Z.of_nat (length segments)))
    with (pred (length segments)) by lia.
  rewrite list_lookup_fmap, <- last_lookup, Hlast. reflexivity.
Qed.

Lemma is_create_queue_request url : is_create_queue (create_request url) = true.
Proof. unfold create_request. now destruct (endswith _ _). Qed.

Lemma filter_create_requests (urls : list string) :
  List.filter is_create_queue
    (flat_map (fun url => [Print [PStr "Recreating "; PStr (queue_name url)];
                           create_request url]) urls)
  = map create_request urls.
Proof.
  induction urls as [| url urls IH]; [reflexivity |].
  simpl. rewrite is_create_queue_request. now rewrite IH.
Qed.

Section QueueRestore.
Context {E : Type} `{Boto E}.
Hypothesis create_accepted :
  forall name attributes e, exists r e',
    api SQS "create_queue" (("QueueName", PStr name) :: attributes) e
    = (Ok r, e').

Lemma restore_queue_run (w : world E) url :
  exists e',
    restore_queue (PStr url) w
    = (Ok tt,
       World e' (fs w) (stdin w) (rand w) (draws w)
         (out w ++ [Print [PStr "Recreating "; PStr (queue_name url)];
                    create_request url])).
Proof.
  assert (last (split_on "/" url) = Some (queue_name url)) as Hlast.
  { unfold queue_name. destruct (last (split_on "/" url)) eqn:Hl;
      [reflexivity |].
    apply last_None in Hl. now apply split_on_nonempty in Hl. }
  unfold restore_queue, mbind, M_mbind, M_bind, lift, print.
  simpl py_split. cbv beta iota.
  rewrite (py_index_last _ _ Hlast). cbv beta iota.
  simpl py_endswith. cbv beta iota. unfold create_request.
  destruct (endswith (queue_name url) ".fifo").
  - destruct (create_accepted (queue_name url)
                [("Attributes", fifo_attributes)] (emu w))
      as [r [e' Hcall]].
    exists e'. erewrite call_eq by exact Hcall.
    simpl. now rewrite <- app_assoc.
  - destruct (create_accepted (queue_name url) [] (emu w))
      as [r [e' Hcall]].
    exists e'. erewrite call_eq by exact Hcall.
    simpl. now rewrite <- app_assoc.
Qed.

Lemma restore_queue_loop (urls : list string) : forall w : world E,
  exists e',
    for_each (map PStr urls) restore_queue w
    = (Ok tt,
       World e' (fs w) (stdin w) (rand w) (draws w)
         (out w ++
          flat_map (fun url => [Print [PStr "Recreating ";
                                       PStr (queue_name url)];
                                create_request url]) urls)).
Proof.
  induction urls as [| url urls IH]; intros w.
  - exists (emu w). simpl. rewrite app_nil_r. now destruct w.
  - destruct (restore_queue_run w url) as [e1 Hone].
    simpl for_each. rewrite (bind_ok _ _ _ _ _ Hone).
    destruct (IH (World e1 (fs w) (stdin w) (rand w) (draws w)
                    (out w ++ [Print [PStr "Recreating ";
                                      PStr (queue_name url)];
                               create_request url]))) as [e2 Hrest].
    exists e2. rewrite Hrest. simpl. now rewrite <- app_assoc.
Qed.

Lemma restore_queues_run (w : world E) (urls : list string) :
  fs w !! "sqs_queues.pickle" = Some (Pickle (PList (map PStr urls))) ->
  exists e',
    restore_queues w
    = (Ok tt,
       World e' (fs w) (stdin w) (rand w) (draws w)
         (out w ++ FileRead "sqs_queues.pickle" ::
          flat_map (fun url => [Print [PStr "Recreating ";
                                       PStr (queue_name url)];
                                create_request url]) urls)).
Proof.
  intros Hfile.
  unfold restore_queues, mbind, M_mbind, M_bind, pickle_load, lift.
  rewrite Hfile. unfold py_len, py_iter. cbv beta iota.
  destruct (0 <? Z.of_nat (length (map PStr urls))) eqn:Hlen.
  - destruct (restore_queue_loop urls
                (emit (FileRead "sqs_queues.pickle") w)) as [e' Hloop].
    exists e'. rewrite Hloop. simpl. now rewrite <- app_assoc.
  - destruct urls as [| url urls]; [| discriminate].
    exists (emu w). reflexivity.
Qed.

End QueueRestore.

Lemma filter_none {A} (f : A -> bool) (l : list A) :
  Forall (fun x => f x = false) l -> List.filter f l = [].
Proof.
  induction 1 as [| x l Hx _ IH]; [reflexivity |].
  simpl. now rewrite Hx.
Qed.

Lemma restore_messages_steady {E : Type} `{Boto E} :
  steady (fun ev => is_create_queue ev = false) (restore_messages : M E unit).
Proof.
  unfold restore_messages, restore_message.
  repeat (steady_step; try reflexivity).
Qed.

(** C7: given the persisted queue URLs, and a service that accepts
    queue creation, the [create_queue] requests of [restore_sqs] are, in
    order, one per URL: the queue name is the final path segment of the
    URL, and the request carries [FifoQueue] and
    [ContentBasedDeduplication], both ['true'], exactly when the name
    ends in [.fifo], and no attributes otherwise. *)
Theorem restore_sqs_creates_queues {E : Type} `{Boto E}
    (w : world E) (urls : list string) :
  client SQS (emu w) = true ->
  fs w !! "sqs_queues.pickle" = Some (Pickle (PList (map PStr urls))) ->
  (forall name attributes e, exists r e',
     api SQS "create_queue" (("QueueName", PStr name) :: attributes) e
     = (Ok r, e')) ->
  (exists evs,
     out (snd (restore_sqs w)) = out w ++ evs /\
     List.filter is_create_queue evs = map create_request urls) /\
  (forall url,
     final_segment url (queue_name url) /\
     ((exists stem, queue_name url = stem +:+ ".fifo") ->
      create_request url =
        ApiCall SQS "create_queue"
          [("QueueName", PStr (queue_name url));
           ("Attributes",
            PDict [("FifoQueue", PStr "true");
                   ("ContentBasedDeduplication", PStr "true")])]) /\
     (~ (exists stem, queue_name url = stem +:+ ".fifo") ->
      create_request url =
        ApiCall SQS "create_queue" [("QueueName", PStr (queue_name url))])).
Proof.
  intros Hup Hfile Hcreate. split.
  - unfold restore_sqs.
    unfold mbind at 1, M_mbind, M_bind. unfold print at 1.
    unfold mbind at 1, M_mbind, M_bind.
    rewrite connect_up by exact Hup.
    unfold mbind at 1, M_mbind, M_bind.
    unfold mbind at 1, M_mbind, M_bind.
    destruct (restore_queues_run Hcreate (emit (Print [PStr "Restoring SQS"]) w)
                urls Hfile) as [e1 Hqueues].
    rewrite Hqueues.
    match goal with
    | |- context [restore_messages ?w1] =>
        destruct (restore_messages_steady w1) as [_ [evs [Hout Hall]]];
        destruct (restore_messages w1) as [[[] | x] w2]
    end; simpl in *; rewrite Hout;
      (eexists; split; [rewrite <- !app_assoc; reflexivity |]);
      simpl; rewrite List.filter_app, filter_create_requests,
               (filter_none _ _ Hall), app_nil_r; reflexivity.
  - intros url. split; [apply queue_name_final_segment |].
    unfold create_request. split; intros Hfifo.
    + apply endswith_spec in Hfifo. now rewrite Hfifo.
    + destruct (endswith (queue_name url) ".fifo") eqn:Hends;
        [| reflexivity].
      apply endswith_spec in Hends. contradiction.
Qed.

Lemma localstack_creates_queues name attributes (e : LocalStack.state) :
  exists r e',
    api SQS "create_queue" (("QueueName", PStr name) :: attributes) e
    = (Ok r, e').
Proof.
  simpl. unfold LocalStack.create_queue. simpl.
  destruct (LocalStack.sqs e !! LocalStack.queue_url name); eauto.
Qed.

Lemma restore_sqs_creates_queues_witness :
  List.filter is_create_queue
    (out (snd (restore_sqs
                 (LocalStack.world_of LocalStack.empty
                    (queue_files two_queues) "r"))))
  = [ApiCall SQS "create_queue" [("QueueName", PStr "jobs")];
     ApiCall SQS "create_queue"
       [("QueueName", PStr "orders.fifo");
        ("Attributes",
         PDict [("FifoQueue", PStr "true");
                ("ContentBasedDeduplication", PStr "true")])]].
Proof.
  assert (client SQS (emu (LocalStack.world_of LocalStack.empty
                             (queue_files two_queues) "r")) = true) as Hup
    by reflexivity.
  assert (fs (LocalStack.world_of LocalStack.empty
                (queue_files two_queues) "r") !! "sqs_queues.pickle"
          = Some (Pickle (PList (map PStr two_queues)))) as Hfile
    by reflexivity.
  destruct (restore_sqs_creates_queues _ two_queues Hup Hfile
              localstack_creates_queues)
    as [[evs [Hout Hcalls]] _].
  rewrite Hout. simpl. rewrite Hcalls. reflexivity.
Defined.

(** ** Object storage backup on the emulator *)

Section StoreBackup.
Import LocalStack.

Lemma backup_bucket_steady :
  forall bucket objects,
    steady (fun ev => is_file_write ev = false)
           (backup_bucket bucket objects : M state (list pyval)).
Proof.
  intros bucket objects. unfold backup_bucket, backup_object.
  repeat (steady_step; try reflexivity).
Qed.

Lemma backup_object_ok (w : world state) b objs o acc :
  s3 (emu w) !! b = Some objs ->
  objs !! fst o = Some (snd o) ->
  exists w',
    backup_object (PDict [("Name", PStr b)]) (object_entry o) acc w
      = (Ok (acc ++ [object_record b o]), w') /\
    emu w' = emu w.
Proof.
  intros Hb Ho. destruct o as [k body]. simpl in Ho.
  assert (api S3 "get_object" [("Bucket", PStr b); ("Key", PStr k)] (emu w)
          = (Ok (PDict [("Body", PBody body)]), emu w)) as Hcall.
  { simpl. unfold get_object. simpl. now rewrite Hb, Ho. }
  unfold backup_object, object_entry, mbind, M_mbind, M_bind, lift, print.
  simpl py_getitem. cbv beta iota.
  erewrite call_eq by exact Hcall.
  eexists. split; [reflexivity | reflexivity].
Qed.

Lemma backup_objects_ok b objs (l : list (string * list byte)) :
  (forall o, o ∈ l -> objs !! fst o = Some (snd o)) ->
  forall (w : world state) acc,
    s3 (emu w) !! b = Some objs ->
    exists w',
      for_acc (map object_entry l) acc
              (backup_object (PDict [("Name", PStr b)])) w
        = (Ok (acc ++ map (object_record b) l), w') /\
      emu w' = emu w.
Proof.
  induction l as [| o l IH]; intros Hl w acc Hb.
  - exists w. simpl. now rewrite app_nil_r.
  - destruct (backup_object_ok w b objs o acc Hb) as [w1 [Hone He1]].
    { apply Hl. now left. }
    simpl for_acc. rewrite (bind_ok _ _ _ _ _ Hone).
    destruct (IH (fun o' Ho' => Hl o' (list_elem_of_further _ _ _ Ho'))
                 w1 (acc ++ [object_record b o])) as [w2 [Hrest He2]].
    { now rewrite He1. }
    exists w2. rewrite Hrest. simpl. rewrite <- app_assoc.
    split; [reflexivity | congruence].
Qed.

Lemma list_objects_some (e : state) b objs :
  s3 e !! b = Some objs -> objs <> ∅ ->
  api S3 "list_objects" [("Bucket", PStr b)] e
  = (Ok (PDict [("Name", PStr b);
                ("Contents",
                 PList (map object_entry (take max_keys (map_to_list objs))));
                ("IsTruncated",
                 PBool (Nat.ltb max_keys (length (map_to_list objs))))]),
     e).
Proof.
  intros Hb Hne.
  change (api S3 "list_objects" ?k ?e) with (list_objects k e).
  unfold list_objects.
  change (str_arg "Bucket" [("Bucket", PStr b)]) with (@Ok string b).
  cbv beta iota. rewrite Hb.
  destruct (map_to_list objs) eqn:Hl; [| reflexivity].
  now apply map_to_list_empty_iff in Hl.
Qed.

Lemma list_objects_none (e : state) b :
  s3 e !! b = Some ∅ ->
  api S3 "list_objects" [("Bucket", PStr b)] e
  = (Ok (PDict [("Name", PStr b); ("IsTruncated", PBool false)]), e).
Proof.
  intros Hb.
  change (api S3 "list_objects" ?k ?e) with (list_objects k e).
  unfold list_objects.
  change (str_arg "Bucket" [("Bucket", PStr b)]) with (@Ok string b).
  cbv beta iota. rewrite Hb.
  now rewrite map_to_list_empty.
Qed.

Lemma listed_object (objs : gmap string (list byte)) o :
  o ∈ take max_keys (map_to_list objs) -> objs !! fst o = Some (snd o).
Proof.
  intros Ho. apply elem_of_take in Ho as [i [Hi _]].
  apply elem_of_map_to_list'. now apply list_elem_of_lookup_2 in Hi.
Qed.

Lemma backup_bucket_ok (w : world state) b acc :
  s3 (emu w) !! fst b = Some (snd b) -> snd b <> ∅ ->
  exists w',
    backup_bucket (bucket_entry b) acc w = (Ok (acc ++ listed_records b), w') /\
    emu w' = emu w.
Proof.
  destruct b as [b objs]. cbn [fst snd]. intros Hb Hne.
  unfold backup_bucket, bucket_entry, listed_records. cbn [fst snd].
  rewrite (bind_lift_ok _ _ _ (PStr b)) by reflexivity.
  cbv beta. unfold mbind at 1, M_mbind at 1, M_bind at 1, print.
  cbv beta iota.
  match goal with
  | |- context [(call S3 "list_objects" _ ≫= _) ?w1] =>
      rewrite (bind_ok _ _ w1 _ _
                 (call_eq S3 "list_objects" [("Bucket", PStr b)] w1 _ _
                    (list_objects_some _ _ _ Hb Hne)))
  end.
  cbv beta.
  rewrite (bind_lift_ok _ _ _
             (PList (map object_entry (take max_keys (map_to_list objs)))))
    by reflexivity.
  cbv beta.
  rewrite (bind_lift_ok _ _ _
             (map object_entry (take max_keys (map_to_list objs))))
    by reflexivity.
  cbv beta.
  match goal with
  | |- context [for_acc _ _ _ ?w1] =>
      destruct (backup_objects_ok b objs (take max_keys (map_to_list objs))
                  (listed_object objs) w1 acc Hb) as [w2 [Hloop He2]]
  end.
  exists w2. split; [exact Hloop | exact He2].
Qed.


Lemma backup_bucket_empty (w : world state) b acc :
  s3 (emu w) !! b = Some ∅ ->
  exists w',
    backup_bucket (PDict [("Name", PStr b)]) acc w
    = (Raise (KeyError (PStr "Contents")), w').
Proof.
  intros Hb. unfold backup_bucket.
  unfold mbind at 1, M_mbind, M_bind, lift. simpl py_getitem. cbv beta iota.
  unfold mbind at 1, M_mbind, M_bind, print. cbv beta iota.
  unfold mbind at 1, M_mbind, M_bind.
  erewrite call_eq by (simpl emu; exact (list_objects_none _ _ Hb)).
  cbv beta iota.
  unfold mbind at 1, M_mbind, M_bind. simpl py_getitem. cbv beta iota.
  eexists. reflexivity.
Qed.

Lemma backup_buckets_fault (l : list (string * gmap string (list byte))) :
  forall (w : world state) acc,
    (forall b, b ∈ l -> s3 (emu w) !! fst b = Some (snd b)) ->
    (exists b, b ∈ l /\ snd b = ∅) ->
    exists w',
      for_acc (map bucket_entry l) acc backup_bucket w
      = (Raise (KeyError (PStr "Contents")), w').
Proof.
  induction l as [| b l IH]; intros w acc Hl [b0 [Hin Hempty]].
  - now apply elem_of_nil in Hin.
  - simpl for_acc. destruct (decide (snd b = ∅)) as [Hb | Hb].
    + destruct (backup_bucket_empty w (fst b) acc) as [w1 Hone].
      { rewrite <- Hb. apply Hl. now left. }
      exists w1. now rewrite (bind_raise _ _ _ _ _ Hone).
    + destruct (backup_bucket_ok w b acc) as [w1 [Hone He1]];
        [apply Hl; now left | exact Hb |].
      rewrite (bind_ok _ _ _ _ _ Hone).
      apply IH.
      * intros b' Hb'. rewrite He1. apply Hl. now right.
      * exists b0. split; [| exact Hempty].
        apply elem_of_cons in Hin as [-> | Hin]; [contradiction | exact Hin].
Qed.


Lemma bucket_names_loop (l : list (string * gmap string (list byte))) :
  forall (w : world state) acc,
    for_acc (map bucket_entry l) acc
      (fun bucket bucket_list =>
         name ← lift (py_getitem bucket "Name");
         mret (bucket_list ++ [name])) w
    = (Ok (acc ++ map (fun b => PStr (fst b)) l), w).
Proof.
  induction l as [| b l IH]; intros w acc; simpl.
  - now rewrite app_nil_r.
  - unfold mbind at 1, M_mbind, M_bind. simpl. rewrite IH.
    now rewrite <- app_assoc.
Qed.

Lemma picklable_names {A} (f : A -> string) (l : list A) :
  picklable (PList (map (fun x => PStr (f x)) l)) = true.
Proof. simpl. induction l; simpl; auto. Qed.

End StoreBackup.

(** C10: on the emulator, with one bucket that holds no object,
    [backup_s3] raises [KeyError('Contents')]: the listing of that
    bucket has no ['Contents'] field and the loop indexes it.  The
    fault is not handled, so [backup] ends with it too; the bucket-name
    file has been written, the object file has not (no later event is
    a file write, and the object file is as it was before the run). *)
Theorem backup_s3_empty_bucket_fault
    (w : world LocalStack.state) (b : string) :
  client S3 (emu w) = true ->
  LocalStack.s3 (emu w) !! b = Some ∅ ->
  exists w' evs,
    backup_s3 w = (Raise (KeyError (PStr "Contents")), w') /\
    backup w = (Raise (KeyError (PStr "Contents")), w') /\
    fs w' =
      <["s3_buckets.pickle" :=
          Pickle (PList (map (fun b => PStr (fst b))
                             (map_to_list (LocalStack.s3 (emu w)))))]> (fs w) /\
    out w' =
      out w ++
      ApiCall S3 "list_buckets" [] ::
      FileWrite "s3_buckets.pickle"
        (PList (map (fun b => PStr (fst b))
                    (map_to_list (LocalStack.s3 (emu w))))) :: evs /\
    Forall (fun ev => is_file_write ev = false) evs /\
    fs w' !! "s3_objects.pickle" = fs w !! "s3_objects.pickle".
Proof.
  intros Hup Hb.
  set (l := map_to_list (LocalStack.s3 (emu w))).
  assert (api S3 "list_buckets" [] (emu w)
          = (Ok (PDict [("Buckets", PList (map bucket_entry l))]), emu w))
    as Hlist by reflexivity.
  assert (exists w' evs,
    backup_s3 w = (Raise (KeyError (PStr "Contents")), w') /\
    fs w' = <["s3_buckets.pickle" :=
                Pickle (PList (map (fun b => PStr (fst b)) l))]> (fs w) /\
    out w' = out w ++ ApiCall S3 "list_buckets" [] ::
             FileWrite "s3_buckets.pickle"
               (PList (map (fun b => PStr (fst b)) l)) :: evs /\
    Forall (fun ev => is_file_write ev = false) evs) as Hrun.
  { unfold backup_s3.
    rewrite (bind_ok _ _ _ _ _ (connect_up S3 _ w Hup)).
    unfold mbind at 1, M_mbind, M_bind.
    unfold mbind at 1, M_mbind, M_bind.
    rewrite (call_eq _ _ _ _ _ _ Hlist).
    unfold mbind at 1, M_mbind, M_bind, lift. simpl py_getitem.
    cbv beta iota.
    unfold mbind at 1, M_mbind, M_bind. simpl py_iter. cbv beta iota.
    unfold mbind at 1, M_mbind, M_bind.
    rewrite bucket_names_loop. simpl app.
    unfold mbind at 1, M_mbind, M_bind.
    rewrite pickle_dump_eq by apply picklable_names.
    unfold mbind at 1, M_mbind, M_bind.
    match goal with
    | |- context [for_acc (map bucket_entry l) [] backup_bucket ?w2] =>
        destruct (steady_for_acc (fun ev => is_file_write ev = false)
                    (map bucket_entry l) backup_bucket
                    backup_bucket_steady [] w2) as [Hfs [evs [Hout Hall]]];
        destruct (backup_buckets_fault l w2 []) as [w' Hloop]
    end.
    - intros b' Hb'. simpl emu. destruct b' as [b' objs].
      now apply elem_of_map_to_list in Hb'.
    - exists (b, ∅). split; [| reflexivity]. now apply elem_of_map_to_list.
    - rewrite Hloop in *. simpl in Hfs, Hout. exists w', evs.
      split; [reflexivity |]. split; [exact Hfs |].
      split; [| exact Hall].
      rewrite Hout, <- !app_assoc. reflexivity. }
  destruct Hrun as [w' [evs [Hrun [Hfs [Hout Hall]]]]].
  exists w', evs. split; [exact Hrun |].
  split; [unfold backup; now rewrite (bind_raise _ _ _ _ _ Hrun) |].
  split; [exact Hfs |]. split; [exact Hout |]. split; [exact Hall |].
  rewrite Hfs. now rewrite lookup_insert_ne.
Qed.

Lemma backup_s3_empty_bucket_fault_witness :
  fst (backup (LocalStack.world_of mixed_store ∅ "b"))
    = Raise (KeyError (PStr "Contents")) /\
  fs (snd (backup (LocalStack.world_of mixed_store ∅ "b")))
     !! "s3_objects.pickle" = None.
Proof.
  assert (client S3 (emu (LocalStack.world_of mixed_store ∅ "b")) = true)
    as Hup by reflexivity.
  assert (LocalStack.s3 (emu (LocalStack.world_of mixed_store ∅ "b"))
            !! "empty" = Some ∅) as Hb by reflexivity.
  destruct (backup_s3_empty_bucket_fault _ "empty" Hup Hb)
    as [w' [evs [_ [Hrun [_ [_ [_ Hfile]]]]]]].
  rewrite Hrun. simpl. rewrite Hfile. split; reflexivity.
Defined.

(** ** Queue backup on the emulator *)









Section QueueBackup.
Import LocalStack.











End QueueBackup.




(** ** Object storage round trip on the emulator *)

Section StoreRestore.
Import LocalStack.











End StoreRestore.

Section StoreRoundTrip.
Import LocalStack.




End StoreRoundTrip.




(** C1 at the failing input: a source with the bucket [docs] (two
    objects) and the empty bucket [empty].  [backup_s3] raises
    [KeyError('Contents')] and leaves no object file; [restore_s3], run
    on what it left against an empty target, raises
    [FileNotFoundError] after recreating the two buckets, so [docs] is
    restored without its objects. *)
Theorem roundtrip_s3_empty_bucket_fails :
  fst (backup_s3 (LocalStack.world_of mixed_store ∅ "b"))
    = Raise (KeyError (PStr "Contents")) /\
  fs (snd (backup_s3 (LocalStack.world_of mixed_store ∅ "b")))
     !! "s3_buckets.pickle"
    = Some (Pickle (PList [PStr "empty"; PStr "docs"])) /\
  fs (snd (backup_s3 (LocalStack.world_of mixed_store ∅ "b")))
     !! "s3_objects.pickle" = None /\
  fst (restore_s3
         (LocalStack.world_of LocalStack.empty
            (fs (snd (backup_s3 (LocalStack.world_of mixed_store ∅ "b"))))
            "r"))
    = Raise (FileNotFoundError "s3_objects.pickle") /\
  stored_object mixed_store "docs" "a.txt" = Some [x68; x69] /\
  stored_object
    (emu (snd (restore_s3
                 (LocalStack.world_of LocalStack.empty
                    (fs (snd (backup_s3
                                (LocalStack.world_of mixed_store ∅ "b"))))
                    "r"))))
    "docs" "a.txt" = None.
Proof. repeat split; vm_compute; reflexivity. Qed.

(** ** Topic restore after a backup without topics *)

(** A working directory without a topic file (as a backup of an
    environment with no topic leaves it, when the file was not there
    before) makes [restore_sns] raise [FileNotFoundError] at once: no
    request is sent and nothing is logged. *)
Theorem restore_sns_without_topic_file {E : Type} `{Boto E} (w : world E) :
  client SNS (emu w) = true ->
  fs w !! "sns_topics.pickle" = None ->
  restore_sns w = (Raise (FileNotFoundError "sns_topics.pickle"), w).
Proof.
  intros Hup Hfile. unfold restore_sns, restore_sns_with.
  rewrite (bind_ok _ _ _ _ _ (connect_up SNS _ w Hup)).
  unfold restore_topics, mbind, M_mbind, M_bind, pickle_load.
  now rewrite Hfile.
Qed.

Lemma restore_sns_without_topic_file_witness :
  fst (restore_sns
         (LocalStack.world_of LocalStack.empty
            (fs (snd (backup (LocalStack.world_of LocalStack.empty ∅ "b"))))
            "r"))
  = Raise (FileNotFoundError "sns_topics.pickle").
Proof.
  assert (client SNS
            (emu (LocalStack.world_of LocalStack.empty
                    (fs (snd (backup
                                (LocalStack.world_of LocalStack.empty ∅ "b"))))
                    "r")) = true) as Hup by reflexivity.
  assert (fs (LocalStack.world_of LocalStack.empty
                (fs (snd (backup
                            (LocalStack.world_of LocalStack.empty ∅ "b"))))
                "r") !! "sns_topics.pickle" = None) as Hfile
    by (vm_compute; reflexivity).
  now rewrite (restore_sns_without_topic_file _ Hup Hfile).
Defined.

(** ** What backup and restore may touch *)

Section Confined.
Context {E : Type} `{Boto E}.
Variable F : string -> bool.
Variable P : event -> Prop.

Lemma confined_steady {A} (m : M E A) : steady P m -> confined F P m.
Proof.
  intros Hm w. destruct (Hm w) as [Hfs Hout].
  split; [intros f _; now rewrite Hfs | exact Hout].
Qed.

Lemma confined_bind {A B} (m : M E A) (k : A -> M E B) :
  confined F P m -> (forall a, confined F P (k a)) -> confined F P (m ≫= k).
Proof.
  intros Hm Hk w. unfold mbind, M_mbind, M_bind.
  destruct (Hm w) as [Hfs [evs [Hout Hall]]].
  destruct (m w) as [[a | e] w1]; simpl in *.
  - destruct (Hk a w1) as [Hfs' [evs' [Hout' Hall']]]. split.
    + intros f Hf. now rewrite Hfs', Hfs.
    + exists (evs ++ evs'). rewrite Hout', Hout, app_assoc.
      split; [reflexivity | now apply Forall_app].
  - split; [exact Hfs | now exists evs].
Qed.

Lemma confined_dump f v :
  F f = true -> P (FileWrite f v) ->
  confined F P (pickle_dump f v : M E unit).
Proof.
  intros Hf Hev w. unfold pickle_dump. destruct (picklable v); simpl.
  - split.
    + intros f' Hf'. apply lookup_insert_ne. congruence.
    + exists [FileWrite f v]. split; [reflexivity | now constructor].
  - split.
    + intros f' Hf'. apply lookup_insert_ne. congruence.
    + exists []. now rewrite app_nil_r.
Qed.

End Confined.

(** Like [steady_step], for blocks that dump snapshot files. *)
Ltac confined_step :=
  match goal with
  | |- confined _ _ (pickle_dump _ _) => apply confined_dump; reflexivity
  | |- confined _ _ (mbind _ _) => apply confined_bind; [| intros ?]
  | |- confined _ _ (if ?b then _ else _) => destruct b
  | |- confined _ _ _ =>
      apply confined_steady; repeat (steady_step; try reflexivity)
  end.

Section Touch.
Context {E : Type} `{Boto E}.

Lemma backup_s3_confined :
  confined is_snapshot_file (fun ev => backup_event ev = true)
           (backup_s3 : M E bool).
Proof.
  unfold backup_s3, backup_bucket, backup_object. repeat confined_step.
Qed.

Lemma backup_sqs_confined :
  confined is_snapshot_file (fun ev => backup_event ev = true)
           (backup_sqs : M E bool).
Proof.
  unfold backup_sqs, backup_queue, drain_one. repeat confined_step.
Qed.

Lemma backup_sns_confined :
  confined is_snapshot_file (fun ev => backup_event ev = true)
           (backup_sns : M E bool).
Proof.
  unfold backup_sns, backup_topic. repeat confined_step.
Qed.

Lemma restore_s3_steady :
  steady (fun ev => restore_event ev = true) (restore_s3 : M E bool).
Proof.
  unfold restore_s3, restore_bucket, restore_object.
  repeat (steady_step; try reflexivity).
Qed.

Lemma restore_sqs_steady :
  steady (fun ev => restore_event ev = true) (restore_sqs : M E bool).
Proof.
  unfold restore_sqs, restore_queues, restore_messages, restore_queue,
    restore_message.
  repeat (steady_step; try reflexivity).
Qed.

Lemma restore_sns_steady member :
  steady (fun ev => restore_event ev = true)
         (restore_sns_with member : M E bool).
Proof.
  unfold restore_sns_with, restore_topics, restore_subscriptions,
    restore_topic, restore_subscription.
  repeat (steady_step; try reflexivity).
Qed.

End Touch.

(** X3: whatever the services answer and however the run ends, [backup]
    logs only console lines, writes of the six snapshot files and
    listing or reading requests, plus [delete_message]; it sends no
    creating request, reads no file, and leaves every file other than
    the six snapshot files as it was. *)
Theorem backup_touches_only_snapshots {E : Type} `{Boto E} (w : world E) :
  (exists evs,
     out (snd (backup w)) = out w ++ evs /\
     Forall (fun ev => backup_event ev = true) evs) /\
  (forall f, is_snapshot_file f = false ->
             fs (snd (backup w)) !! f = fs w !! f).
Proof.
  assert (confined is_snapshot_file (fun ev => backup_event ev = true)
            (backup : M E unit)) as Hbackup.
  { unfold backup.
    apply confined_bind; [apply backup_s3_confined | intros _].
    apply confined_bind; [apply backup_sqs_confined | intros _].
    apply confined_bind; [apply backup_sns_confined | intros _].
    apply confined_steady, steady_ret. }
  destruct (Hbackup w) as [Hfs Hout]. split; assumption.
Qed.

(** X4: whatever the services answer and however the run ends,
    [restore] changes no file of the working directory, and logs only
    console lines, reads of the six snapshot files and the six creating
    requests ([create_bucket], [put_object], [create_queue],
    [send_message], [create_topic], [subscribe]). *)
Theorem restore_writes_no_file {E : Type} `{Boto E} (w : world E) :
  fs (snd (restore w)) = fs w /\
  exists evs,
    out (snd (restore w)) = out w ++ evs /\
    Forall (fun ev => restore_event ev = true) evs.
Proof.
  assert (steady (fun ev => restore_event ev = true) (restore : M E unit))
    as Hrestore.
  { unfold restore.
    apply steady_bind; [apply restore_s3_steady | intros _].
    apply steady_bind; [apply restore_sqs_steady | intros _].
    apply steady_bind; [apply restore_sns_steady | intros _].
    apply steady_ret. }
  exact (Hrestore w).
Qed.

(** ** Random strings *)

Lemma char_at_member (s : string) : forall i,
  (i < String.length s)%nat ->
  existsb (Ascii.eqb (char_at i s)) (list_ascii_of_string s) = true.
Proof.
  unfold char_at. induction s as [| a s IH]; intros i Hi; simpl in *; [lia |].
  destruct i as [| i]; simpl.
  - now rewrite Ascii.eqb_refl.
  - rewrite IH by lia. apply orb_true_r.
Qed.

Lemma random_choice_letter {E} (w : world E) :
  is_ascii_letter
    (char_at (rand w (draws w) mod String.length ascii_letters) ascii_letters)
  = true.
Proof.
  apply char_at_member. apply Nat.mod_upper_bound.
  change (String.length ascii_letters) with 52%nat. discriminate.
Qed.

Lemma gen_rand_str_run {E : Type} `{Boto E} (n : nat) (w : world E) :
  exists s,
    gen_rand_str n w
      = (Ok s, World (emu w) (fs w) (stdin w) (rand w) (draws w + n)%nat
                     (out w)) /\
    String.length s = n /\
    forallb is_ascii_letter (list_ascii_of_string s) = true.
Proof.
  revert w. induction n as [| n IH]; intros w.
  - exists EmptyString. simpl. rewrite Nat.add_0_r.
    split; [now destruct w | split; reflexivity].
  - simpl gen_rand_str. unfold mbind at 1, M_mbind, M_bind.
    unfold random_choice at 1. cbv beta iota.
    destruct (IH (World (emu w) (fs w) (stdin w) (rand w) (S (draws w))
                        (out w))) as [s [Hrun [Hlen Hletters]]].
    unfold mbind at 1, M_mbind, M_bind. rewrite Hrun. cbv beta iota.
    unfold mret, M_mret, M_ret.
    exists (String (char_at (rand w (draws w) mod String.length ascii_letters)
                            ascii_letters) s).
    split; [| split].
    + cbn [emu fs stdin rand draws out]. do 2 f_equal. lia.
    + cbn [String.length]. now rewrite Hlen.
    + cbn [list_ascii_of_string forallb].
      now rewrite Hletters, random_choice_letter.
Qed.


(** X5: [gen_rand_str n] always returns, with a string of exactly [n]
    characters, each of them an ASCII letter; it makes [n] draws from the
    random source and touches nothing else. *)
Theorem gen_rand_str_letters {E : Type} `{Boto E} (n : nat) (w : world E) :
  exists s,
    gen_rand_str n w
      = (Ok s, World (emu w) (fs w) (stdin w) (rand w) (draws w + n)%nat
                     (out w)) /\
    String.length s = n /\
    forallb is_ascii_letter (list_ascii_of_string s) = true.
Proof. apply gen_rand_str_run. Qed.

(** ** Missing clients and services that do not answer *)

(** X6: the [except] blocks of the steps guard [boto3.client] and
    nothing else.  When [boto3.client] raises for each of the three
    services, [backup] and [restore] both end normally having only
    printed their complaints, one per service in the order S3, SQS, SNS
    ([restore] also prints its SQS banner): no request is sent, no file
    is read or written.  A service that cannot be reached is another
    matter: [boto3.client] connects to nothing, so the client is made,
    and the fault of the first request is not caught.  When the S3
    client is made and [list_buckets] raises, [backup] raises that
    fault having sent this one request: it prints no complaint, writes
    no file, and never runs [backup_sqs] and [backup_sns]. *)
Theorem guard_covers_client_only {E : Type} `{Boto E} (w : world E) :
  ((forall svc, client svc (emu w) = false) ->
   backup w
     = (Ok tt,
        World (emu w) (fs w) (stdin w) (rand w) (draws w)
          (out w ++ [Print [PStr s3_down]; Print [PStr sqs_down];
                     Print [PStr sns_down]])) /\
   restore w
     = (Ok tt,
        World (emu w) (fs w) (stdin w) (rand w) (draws w)
          (out w ++ [Print [PStr s3_down]; Print [PStr "Restoring SQS"];
                     Print [PStr sqs_down]; Print [PStr sns_down]]))) /\
  (forall e e',
     client S3 (emu w) = true ->
     api S3 "list_buckets" [] (emu w) = (Raise e, e') ->
     backup w
       = (Raise e,
          World e' (fs w) (stdin w) (rand w) (draws w)
            (out w ++ [ApiCall S3 "list_buckets" []]))).
Proof.
  split.
  - intros Hdown. split.
    + unfold backup, backup_s3, backup_sqs, backup_sns, mbind, M_mbind,
        M_bind.
      rewrite (connect_down S3 _ w (Hdown S3)). cbv beta iota.
      unfold mret, M_mret, M_ret. cbv beta iota.
      rewrite connect_down by apply Hdown. cbv beta iota.
      rewrite connect_down by apply Hdown. unfold emit. simpl.
      now rewrite <- !app_assoc.
    + unfold restore, restore_s3, restore_sqs, restore_sns, restore_sns_with,
        mbind, M_mbind, M_bind.
      rewrite (connect_down S3 _ w (Hdown S3)). cbv beta iota.
      unfold mret, M_mret, M_ret, print. cbv beta iota.
      rewrite connect_down by apply Hdown. cbv beta iota.
      rewrite connect_down by apply Hdown. unfold emit. simpl.
      now rewrite <- !app_assoc.
  - intros e e' Hup Hlist.
    unfold backup, backup_s3.
    unfold mbind at 1, M_mbind, M_bind.
    rewrite (bind_ok _ _ _ _ _ (connect_up S3 _ w Hup)). cbv beta iota.
    unfold mbind at 1, M_mbind, M_bind.
    now rewrite (bind_raise _ _ _ _ _ (call_eq _ _ _ _ _ _ Hlist)).
Qed.

Lemma guard_covers_client_only_witness :
  (out (snd (backup (LocalStack.world_of no_client ∅ "b")))
     = [Print [PStr s3_down]; Print [PStr sqs_down]; Print [PStr sns_down]] /\
   fs (snd (backup (LocalStack.world_of no_client ∅ "b")))
      !! "s3_buckets.pickle" = None) /\
  backup (Stopped.world_of ∅ "b")
    = (Raise EndpointConnectionError,
       World tt ∅ ["b"] (fun n => n) 0%nat [ApiCall S3 "list_buckets" []]).
Proof.
  split.
  - assert (forall svc,
              client svc (emu (LocalStack.world_of no_client ∅ "b")) = false)
      as Hdown by reflexivity.
    destruct (proj1 (guard_covers_client_only _) Hdown) as [Hbackup _].
    rewrite Hbackup. split; reflexivity.
  - exact (proj2 (guard_covers_client_only (Stopped.world_of ∅ "b"))
                 EndpointConnectionError tt eq_refl eq_refl).
Defined.

(** ** The status the steps return *)

Lemma then_false_returns_false {E A} (m : M E A) (w w' : world E) (b : bool) :
  (m;; mret false) w = (Ok b, w') -> b = false.
Proof.
  unfold mbind, M_mbind, M_bind. destruct (m w) as [[a | e] w1].
  - now intros [= <- _].
  - discriminate.
Qed.

(** X7: the status is never a success: each of the six steps, whenever
    it returns at all (with or without a client, whatever it managed to
    transfer), returns [False]. *)
Theorem steps_return_false {E : Type} `{Boto E} (w w' : world E) (b : bool) :
  (backup_s3 w = (Ok b, w') -> b = false) /\
  (backup_sqs w = (Ok b, w') -> b = false) /\
  (backup_sns w = (Ok b, w') -> b = false) /\
  (restore_s3 w = (Ok b, w') -> b = false) /\
  (restore_sqs w = (Ok b, w') -> b = false) /\
  (restore_sns w = (Ok b, w') -> b = false).
Proof.
  assert (forall (conn : M E bool) (body : bool -> M E unit),
            (s ← conn; body s;; mret false) w = (Ok b, w') -> b = false)
    as Hshape.
  { intros conn body. unfold mbind at 1, M_mbind, M_bind.
    destruct (conn w) as [[s | e] w1]; [| discriminate].
    apply then_false_returns_false. }
  repeat split.
  - apply Hshape.
  - apply Hshape.
  - apply Hshape.
  - apply Hshape.
  - unfold restore_sqs. unfold mbind at 1, M_mbind, M_bind.
    destruct (print [PStr "Restoring SQS"] w) as [[[] | e] w1] eqn:Hp;
      [| discriminate].
    unfold mbind at 1, M_mbind, M_bind.
    destruct (connect SQS sqs_down w1) as [[s | e] w2]; [| discriminate].
    apply then_false_returns_false.
  - apply Hshape.
Qed.

Lemma steps_return_false_witness :
  exists b w',
    backup_sqs (LocalStack.world_of busy_queues ∅ "b") = (Ok b, w') /\
    b = false.
Proof.
  destruct (backup_sqs (LocalStack.world_of busy_queues ∅ "b"))
    as [[b | e] w'] eqn:Hrun.
  - exists b, w'. split; [reflexivity |].
    exact (proj1 (proj2 (steps_return_false _ w' b)) Hrun).
  - vm_compute in Hrun. discriminate Hrun.
Defined.

(** ** The entry point, when a choice is made *)

(** X8: [main] looks at nothing but the lower-cased first input line.
    With no input it raises [EOFError] after the menu; with [b] or [B]
    it runs [backup], with [r] or [R] it runs [restore], on the world as
    it is after the prompt; the closing line is printed when the action
    returns, and a fault of the action ends [main] with that fault,
    without the closing line. *)
Theorem main_dispatch {E : Type} `{Boto E} (w : world E) :
  (stdin w = [] ->
   main w
     = (Raise EOFError,
        World (emu w) (fs w) [] (rand w) (draws w) (out w ++ menu_events))) /\
  (forall line rest,
     stdin w = line :: rest -> lower line = "b" ->
     main w = and_close (backup (after_prompt w rest))) /\
  (forall line rest,
     stdin w = line :: rest -> lower line = "r" ->
     main w = and_close (restore (after_prompt w rest))).
Proof.
  split; [| split].
  - intros Hin. unfold main, mbind, M_mbind, M_bind, print, input, emit.
    simpl. rewrite Hin. simpl. now rewrite <- !app_assoc.
  - intros line rest Hin Hb.
    unfold main, mbind, M_mbind, M_bind, print, input, emit. simpl.
    rewrite Hin. simpl. rewrite Hb. simpl.
    unfold after_prompt, and_close, menu_events. rewrite <- !app_assoc. simpl.
    destruct (backup _) as [[[] | e] w1]; reflexivity.
  - intros line rest Hin Hr.
    unfold main, mbind, M_mbind, M_bind, print, input, emit. simpl.
    rewrite Hin. simpl. rewrite Hr. simpl.
    unfold after_prompt, and_close, menu_events. rewrite <- !app_assoc. simpl.
    destruct (restore _) as [[[] | e] w1]; reflexivity.
Qed.

Lemma main_dispatch_witness :
  fst (main (LocalStack.world_of mixed_store ∅ "B"))
    = Raise (KeyError (PStr "Contents")) /\
  last (out (snd (main (LocalStack.world_of mixed_store ∅ "B"))))
    = Some (ApiCall S3 "list_objects" [("Bucket", PStr "empty")]).
Proof.
  destruct (main_dispatch (LocalStack.world_of mixed_store ∅ "B"))
    as [_ [Hbackup _]].
  rewrite (Hbackup "B" [] eq_refl eq_refl).
  split; vm_compute; reflexivity.
Defined.

(** ** The requests a restore sends *)

Lemma last_split_final_part c s :
  final_part c s (default EmptyString (last (split_on c s))).
Proof.
  unfold final_part.
  destruct (last (split_on c s)) as [name |] eqn:Hlast.
  - simpl. split.
    + pose proof (split_on_no_separator c s) as Hall.
      rewrite Forall_forall in Hall. apply Hall.
      apply last_Some in Hlast as [l' Hl']. rewrite Hl'.
      apply elem_of_app. right. now apply list_elem_of_singleton.
    + pose proof (join_split_on c s) as Hjoin.
      destruct (join_last c _ _ Hlast) as [Heq | [prefix Heq]];
        rewrite Heq in Hjoin; [left | right; exists prefix];
        symmetry; exact Hjoin.
  - apply last_None in Hlast. now apply split_on_nonempty in Hlast.
Qed.

Lemma last_split_on c s :
  last (split_on c s) = Some (default EmptyString (last (split_on c s))).
Proof.
  destruct (last (split_on c s)) eqn:Hl; [reflexivity |].
  apply last_None in Hl. now apply split_on_nonempty in Hl.
Qed.

Lemma requests_app evs evs' : requests (evs ++ evs') = requests evs ++ requests evs'.
Proof. apply List.filter_app. Qed.

Lemma requests_flat_map {A} (g : A -> list event) (req : A -> event) l :
  (forall x, requests (g x) = [req x]) ->
  requests (flat_map g l) = map req l.
Proof.
  intros Hg. induction l as [| x l IH]; [reflexivity |].
  simpl. now rewrite requests_app, Hg, IH.
Qed.

Section Sent.
Context {E : Type} `{Boto E}.

(** A loop whose body always logs [g x]: the log holds what the first
    [k] passes logged, and all of them when the loop returns. *)
Lemma for_each_log {A} (body : A -> M E unit) (g : A -> list event) :
  (forall x w, out (snd (body x w)) = out w ++ g x) ->
  forall l w,
    exists k,
      out (snd (for_each l body w)) = out w ++ flat_map g (take k l) /\
      (k <= length l)%nat /\
      (is_ok (fst (for_each l body w)) = true -> k = length l).
Proof.
  intros Hbody. induction l as [| x l IH]; intros w.
  - exists 0%nat. simpl. rewrite app_nil_r. auto.
  - simpl for_each. unfold mbind, M_mbind, M_bind.
    pose proof (Hbody x w) as Hx.
    destruct (body x w) as [[[] | e] w1]; simpl in Hx.
    + destruct (IH w1) as [k [Hout [Hle Hall]]].
      exists (S k). rewrite Hout, Hx. simpl. rewrite <- app_assoc.
      split; [reflexivity |]. split; [lia |].
      intros Hok. now rewrite (Hall Hok).
    + exists 1%nat. simpl. rewrite app_nil_r.
      split; [exact Hx |]. split; [lia | discriminate].
Qed.

Lemma restore_topic_log arn (w : world E) :
  out (snd (restore_topic (PStr arn) w))
  = out w ++ [Print [PStr "Restoring SNS topic: "; PStr (topic_name arn)];
              create_topic_request arn].
Proof.
  unfold restore_topic, mbind, M_mbind, M_bind, lift, print.
  simpl py_split. cbv beta iota.
  rewrite (py_index_last _ _ (last_split_on ":" arn)). cbv beta iota.
  unfold call. simpl emu.
  destruct (api SNS "create_topic" _ _) as [[r | e] e']; simpl;
    now rewrite <- app_assoc.
Qed.

Lemma restore_bucket_log bucket (w : world E) :
  out (snd (restore_bucket bucket w))
  = out w ++ [Print [PStr "Restoring bucket "; bucket];
              create_bucket_request bucket].
Proof.
  unfold restore_bucket, mbind, M_mbind, M_bind, print, call. simpl emu.
  destruct (api S3 "create_bucket" _ _) as [[r | e] e']; simpl;
    now rewrite <- app_assoc.
Qed.

Lemma restore_object_log o (w : world E) :
  out (snd (restore_object (saved_object_record o) w))
  = out w ++ [put_object_request o].
Proof.
  destruct o as [[b k] body].
  unfold restore_object, saved_object_record, mbind, M_mbind, M_bind, lift.
  change (py_getitem (PDict [("bucket_name", fst (fst (b, k, body)));
                             ("object_key", snd (fst (b, k, body)));
                             ("object_body", snd (b, k, body))])
                     "bucket_name") with (Ok b).
  change (py_getitem (PDict [("bucket_name", fst (fst (b, k, body)));
                             ("object_key", snd (fst (b, k, body)));
                             ("object_body", snd (b, k, body))])
                     "object_key") with (Ok k).
  change (py_getitem (PDict [("bucket_name", fst (fst (b, k, body)));
                             ("object_key", snd (fst (b, k, body)));
                             ("object_body", snd (b, k, body))])
                     "object_body") with (Ok body).
  cbv beta iota. unfold call. simpl emu.
  destruct (api S3 "put_object" _ _) as [[r | e] e']; reflexivity.
Qed.

Lemma for_each_map {A B} (f : A -> B) (body : B -> M E unit) (l : list A) w :
  for_each (map f l) body w = for_each l (fun x => body (f x)) w.
Proof.
  revert w. induction l as [| x l IH]; intros w; [reflexivity |].
  simpl. unfold mbind, M_mbind, M_bind.
  destruct (body (f x) w) as [[[] | e] w1]; [apply IH | reflexivity].
Qed.

Lemma restore_subscriptions_steady member :
  steady (fun ev => is_create_topic ev = false)
         (restore_subscriptions member : M E unit).
Proof.
  unfold restore_subscriptions, restore_subscription.
  repeat (steady_step; try reflexivity).
Qed.

End Sent.

Lemma filter_create_topics (l : list string) :
  List.filter is_create_topic
    (flat_map (fun arn => [Print [PStr "Restoring SNS topic: ";
                                  PStr (topic_name arn)];
                           create_topic_request arn]) l)
  = map create_topic_request l.
Proof.
  induction l as [| arn l IH]; [reflexivity |].
  simpl flat_map. simpl map. rewrite <- IH. reflexivity.
Qed.

(** X9: with a client and a topic file that holds ARN strings,
    [restore_sns] sends [create_topic] requests for the first [k]
    persisted ARNs, in order, each named by what follows the last colon
    of the ARN; [k] is the whole list unless a request failed, and in
    particular whenever [restore_sns] returns.  This holds whatever the
    subscription step does afterwards. *)
Theorem restore_sns_creates_topics {E : Type} `{Boto E}
    (w : world E) (arns : list string) :
  client SNS (emu w) = true ->
  fs w !! "sns_topics.pickle" = Some (Pickle (PList (map PStr arns))) ->
  (exists k evs,
     out (snd (restore_sns w)) = out w ++ evs /\
     List.filter is_create_topic evs
       = map create_topic_request (take k arns) /\
     (is_ok (fst (restore_topics w)) = true -> k = length arns) /\
     (is_ok (fst (restore_sns w)) = true -> k = length arns)) /\
  (forall arn, final_part ":" arn (topic_name arn)).
Proof.
  intros Hup Hfile. split; [| intros arn; apply last_split_final_part].
  assert (exists k,
            out (snd (restore_topics w))
            = out w ++ FileRead "sns_topics.pickle" ::
              flat_map (fun arn =>
                          [Print [PStr "Restoring SNS topic: ";
                                  PStr (topic_name arn)];
                           create_topic_request arn]) (take k arns) /\
            (is_ok (fst (restore_topics w)) = true -> k = length arns))
    as [k [Htopics Hall]].
  { unfold restore_topics, mbind, M_mbind, M_bind, pickle_load, lift.
    rewrite Hfile. unfold py_len, py_iter. cbv beta iota.
    destruct (0 <? Z.of_nat (length (map PStr arns))) eqn:Hlen.
    - rewrite for_each_map.
      destruct (for_each_log (fun arn => restore_topic (PStr arn)) _
                  restore_topic_log arns
                  (emit (FileRead "sns_topics.pickle") w))
        as [k [Hout [_ Hok]]].
      exists k. rewrite Hout. simpl. rewrite <- app_assoc.
      split; [reflexivity | exact Hok].
    - destruct arns; [| discriminate]. exists 0%nat. simpl. auto. }
  assert (List.filter is_create_topic
            (FileRead "sns_topics.pickle" ::
             flat_map (fun arn =>
                         [Print [PStr "Restoring SNS topic: ";
                                 PStr (topic_name arn)];
                          create_topic_request arn]) (take k arns))
          = map create_topic_request (take k arns)) as Hfilter.
  { change (FileRead "sns_topics.pickle" :: ?l)
      with ([FileRead "sns_topics.pickle"] ++ l).
    rewrite List.filter_app. apply filter_create_topics. }
  assert (restore_sns w
          = match restore_topics w with
            | (Ok _, w1) =>
                match restore_subscriptions py_has_key w1 with
                | (Ok _, w2) => (Ok false, w2)
                | (Raise e, w2) => (Raise e, w2)
                end
            | (Raise e, w1) => (Raise e, w1)
            end) as Hshape.
  { unfold restore_sns, restore_sns_with.
    rewrite (bind_ok _ _ _ _ _ (connect_up SNS _ w Hup)).
    unfold mbind, M_mbind, M_bind.
    destruct (restore_topics w) as [[[] | e] w1]; [| reflexivity].
    destruct (restore_subscriptions py_has_key w1) as [[[] | e] w2];
      reflexivity. }
  rewrite Hshape. clear Hshape.
  destruct (restore_topics w) as [[[] | e] w1] eqn:Hrun;
    cbn [fst snd] in Htopics.
  - destruct (restore_subscriptions_steady py_has_key w1)
      as [_ [evs [Hout Hnone]]].
    exists k, ((FileRead "sns_topics.pickle" ::
                flat_map (fun arn =>
                            [Print [PStr "Restoring SNS topic: ";
                                    PStr (topic_name arn)];
                             create_topic_request arn]) (take k arns))
               ++ evs).
    assert (out (snd (match restore_subscriptions py_has_key w1 with
                      | (Ok _, w2) => (Ok false, w2)
                      | (Raise e, w2) => (Raise e, w2)
                      end))
            = out (snd (restore_subscriptions py_has_key w1))) as ->
      by (destruct (restore_subscriptions py_has_key w1) as [[[] | e] w2];
          reflexivity).
    rewrite Hout, Htopics.
    split; [now rewrite <- app_assoc |].
    rewrite List.filter_app, Hfilter, (filter_none _ _ Hnone), app_nil_r.
    split; [reflexivity |]. split; [exact Hall |].
    intros _. now apply Hall.
  - exists k. eexists. cbn [fst snd]. rewrite Htopics.
    split; [reflexivity |]. rewrite Hfilter.
    split; [reflexivity |]. split; [exact Hall |].
    intros Hf. discriminate Hf.
Qed.

Lemma restore_sns_creates_topics_witness :
  List.filter is_create_topic
    (out (snd (restore_sns
                 (LocalStack.world_of LocalStack.empty
                    (topic_files two_topics) "r"))))
  = [ApiCall SNS "create_topic" [("Name", PStr "alerts")];
     ApiCall SNS "create_topic" [("Name", PStr "billing")]].
Proof.
  assert (client SNS (emu (LocalStack.world_of LocalStack.empty
                             (topic_files two_topics) "r")) = true) as Hup
    by reflexivity.
  assert (fs (LocalStack.world_of LocalStack.empty
                (topic_files two_topics) "r") !! "sns_topics.pickle"
          = Some (Pickle (PList (map PStr two_topics)))) as Hfile
    by reflexivity.
  destruct (restore_sns_creates_topics _ two_topics Hup Hfile)
    as [[k [evs [Hout [Hcalls [_ Hall]]]]] _].
  rewrite Hout. simpl app. rewrite Hcalls.
  rewrite Hall by (vm_compute; reflexivity). reflexivity.
Defined.

Section SentStore.
Context {E : Type} `{Boto E}.

Lemma then_ret_out {A B} (m : M E A) (b : B) (w : world E) :
  out (snd ((m;; mret b) w)) = out (snd (m w)) /\
  is_ok (fst ((m;; mret b) w)) = is_ok (fst (m w)).
Proof.
  unfold mbind, M_mbind, M_bind.
  destruct (m w) as [[a | e] w1]; split; reflexivity.
Qed.

Lemma restore_bucket_steady bucket :
  steady (fun _ => True) (restore_bucket bucket : M E unit).
Proof. unfold restore_bucket. repeat (steady_step; try exact I). Qed.

Lemma requests_buckets (l : list pyval) :
  requests (flat_map (fun bucket => [Print [PStr "Restoring bucket "; bucket];
                                     create_bucket_request bucket]) l)
  = map create_bucket_request l.
Proof. apply requests_flat_map. reflexivity. Qed.

Lemma requests_objects (l : list (pyval * pyval * pyval)) :
  requests (flat_map (fun o => [put_object_request o]) l)
  = map put_object_request l.
Proof. apply requests_flat_map. reflexivity. Qed.

(** The block of [restore_s3] that runs with a client. *)
Lemma restore_s3_block_requests (w : world E) names objs :
  fs w !! "s3_buckets.pickle" = Some (Pickle (PList names)) ->
  fs w !! "s3_objects.pickle"
    = Some (Pickle (PList (map saved_object_record objs))) ->
  forall block : M E unit,
    block = (bucket_list ← pickle_load "s3_buckets.pickle";
             n ← lift (py_len bucket_list);
             if 0 <? n then
               bs ← lift (py_iter bucket_list);
               for_each bs restore_bucket;;
               object_list ← pickle_load "s3_objects.pickle";
               k ← lift (py_len object_list);
               if 0 <? k then
                 print [PStr "Restoring "; PInt k; PStr " objects"];;
                 os ← lift (py_iter object_list);
                 for_each os restore_object
               else mret tt
             else mret tt) ->
    exists i j evs r w',
      block w = (r, w') /\
      out w' = out w ++ evs /\
      requests evs = map create_bucket_request (take i names)
                     ++ map put_object_request (take j objs) /\
      (j <> 0%nat -> i = length names) /\
      (is_ok r = true ->
       i = length names /\ (names <> [] -> j = length objs)).
Proof.
  intros Hbuckets Hobjects block ->.
  unfold mbind at 1, M_mbind, M_bind, pickle_load. rewrite Hbuckets.
  unfold mbind at 1, M_mbind, M_bind, lift. unfold py_len at 1.
  cbv beta iota.
  destruct (0 <? Z.of_nat (length names)) eqn:Hn.
  2:{ destruct names; [| discriminate].
      exists 0%nat, 0%nat, [FileRead "s3_buckets.pickle"].
      eexists. eexists. split; [reflexivity |]. simpl.
      repeat split; try reflexivity; try congruence. }
  unfold mbind at 1, M_mbind, M_bind. unfold py_iter at 1. cbv beta iota.
  set (w0 := emit (FileRead "s3_buckets.pickle") w).
  destruct (for_each_log restore_bucket _ restore_bucket_log names w0)
    as [i [Hout1 [Hle1 Hall1]]].
  destruct (steady_for_each (fun _ => True) names restore_bucket
              restore_bucket_steady w0) as [Hfs1 _].
  unfold mbind at 1, M_mbind, M_bind.
  destruct (for_each names restore_bucket w0) as [[[] | e] w1];
    cbn [fst snd is_ok] in *.
  2:{ exists i, 0%nat. eexists. eexists. eexists.
      split; [reflexivity |]. rewrite Hout1. unfold w0. simpl.
      rewrite <- app_assoc. split; [reflexivity |].
      change (FileRead "s3_buckets.pickle" :: ?l)
        with ([FileRead "s3_buckets.pickle"] ++ l).
      rewrite requests_app, requests_buckets. simpl. rewrite app_nil_r.
      split; [reflexivity |].
      split; [congruence | intros Hf; discriminate Hf]. }
  specialize (Hall1 eq_refl).
  assert (fs w1 !! "s3_objects.pickle"
          = Some (Pickle (PList (map saved_object_record objs)))) as Hobjects1
    by (rewrite Hfs1; exact Hobjects).
  unfold mbind at 1, M_mbind, M_bind. rewrite Hobjects1.
  unfold mbind at 1, M_mbind, M_bind. unfold py_len at 1. cbv beta iota.
  destruct (0 <? Z.of_nat (length (map saved_object_record objs))) eqn:Hk.
  2:{ destruct objs; [| discriminate].
      exists i, 0%nat. eexists. eexists. eexists.
      split; [reflexivity |]. simpl. rewrite Hout1. unfold w0. simpl.
      rewrite <- !app_assoc. split; [reflexivity |].
      change (FileRead "s3_buckets.pickle" :: ?l)
        with ([FileRead "s3_buckets.pickle"] ++ l).
      rewrite !requests_app, requests_buckets. simpl. rewrite app_nil_r.
      split; [reflexivity |]. split; [congruence |]. auto. }
  unfold mbind at 1, M_mbind, M_bind, print.
  unfold mbind at 1, M_mbind, M_bind. unfold py_iter at 1. cbv beta iota.
  rewrite for_each_map.
  match goal with
  | |- context [for_each objs _ ?w3] =>
      destruct (for_each_log
                  (fun o => restore_object (saved_object_record o)) _
                  restore_object_log objs w3) as [j [Hout2 [Hle2 Hall2]]];
      destruct (for_each objs
                  (fun o => restore_object (saved_object_record o)) w3)
        as [r w4]
  end.
  exists i, j. eexists. exists r, w4. split; [reflexivity |].
  cbn [fst snd] in Hout2, Hall2. rewrite Hout2. simpl out. rewrite Hout1.
  unfold w0. simpl out. rewrite <- !app_assoc.
  split; [reflexivity |].
  change (FileRead "s3_buckets.pickle" :: ?l)
    with ([FileRead "s3_buckets.pickle"] ++ l).
  rewrite !requests_app, requests_buckets.
  change (FileRead "s3_objects.pickle" :: ?l)
    with ([FileRead "s3_objects.pickle"] ++ l).
  rewrite !requests_app, requests_objects. simpl.
  split; [reflexivity |]. split; [intros _; exact Hall1 |].
  intros Hok. split; [exact Hall1 | intros _; now apply Hall2].
Qed.

End SentStore.

(** X10: with a client, a bucket file holding a list and an object file
    holding object records, the requests [restore_s3] sends are
    [create_bucket] for the first [i] persisted buckets, in order, then
    [put_object] for the first [j] persisted objects, in order, each
    with the record's bucket, key and body as they are.  No object is
    put before every bucket has been created, and when [restore_s3]
    returns, every bucket was created and (unless the bucket list is
    empty) every object was put. *)
Theorem restore_s3_requests {E : Type} `{Boto E}
    (w : world E) (names : list pyval) (objs : list (pyval * pyval * pyval)) :
  client S3 (emu w) = true ->
  fs w !! "s3_buckets.pickle" = Some (Pickle (PList names)) ->
  fs w !! "s3_objects.pickle"
    = Some (Pickle (PList (map saved_object_record objs))) ->
  exists i j evs,
    out (snd (restore_s3 w)) = out w ++ evs /\
    requests evs = map create_bucket_request (take i names)
                   ++ map put_object_request (take j objs) /\
    (j <> 0%nat -> i = length names) /\
    (is_ok (fst (restore_s3 w)) = true ->
     i = length names /\ (names <> [] -> j = length objs)).
Proof.
  intros Hup Hbuckets Hobjects.
  unfold restore_s3.
  rewrite (bind_ok _ _ _ _ _ (connect_up S3 _ w Hup)).
  match goal with
  | |- context [(?block;; mret false) w] =>
      destruct (restore_s3_block_requests w names objs Hbuckets Hobjects
                  block eq_refl)
        as [i [j [evs [r [w' [Hrun [Hout [Hreq [Horder Hall]]]]]]]]];
      destruct r as [[] | e];
        [rewrite (bind_ok _ _ _ _ _ Hrun)
        | rewrite (bind_raise _ _ _ _ _ Hrun)]
  end; exists i, j, evs; simpl; auto.
Qed.

Lemma restore_s3_requests_witness :
  requests (out (snd (restore_s3
                        (LocalStack.world_of LocalStack.empty
                           stray_object_files "r"))))
  = [ApiCall S3 "create_bucket" [("Bucket", PStr "docs")];
     ApiCall S3 "put_object"
       [("Bucket", PStr "docs"); ("Key", PStr "a.txt");
        ("Body", PBytes [x68])];
     ApiCall S3 "put_object"
       [("Bucket", PStr "gone"); ("Key", PStr "b.txt");
        ("Body", PBytes [x69])]] /\
  fst (restore_s3 (LocalStack.world_of LocalStack.empty
                     stray_object_files "r"))
  = Raise (ClientError "NoSuchBucket").
Proof.
  assert (client S3 (emu (LocalStack.world_of LocalStack.empty
                            stray_object_files "r")) = true) as Hup
    by reflexivity.
  destruct (restore_s3_requests
              (LocalStack.world_of LocalStack.empty stray_object_files "r")
              [PStr "docs"]
              [(PStr "docs", PStr "a.txt", PBytes [x68]);
               (PStr "gone", PStr "b.txt", PBytes [x69])]
              Hup eq_refl eq_refl) as [i [j [evs [Hout _]]]].
  split; vm_compute; reflexivity.
Defined.

Section SentMessages.
Context {E : Type} `{Boto E}.

Lemma restore_message_sent (m : string * pyval) (w : world E) :
  exists ev,
    out (snd (restore_message (saved_message m) w)) = out w ++ [ev] /\
    sends_message m ev.
Proof.
  destruct m as [url body].
  unfold restore_message, saved_message, sends_message.
  cbn [fst snd].
  unfold mbind at 1, M_mbind, M_bind.
  unfold mbind at 1, M_mbind, M_bind, lift.
  change (py_getitem (PDict [("queue", PStr url); ("body", body)]) "queue")
    with (Ok (PStr url)).
  cbv beta iota.
  unfold mbind at 1, M_mbind, M_bind.
  cbn [py_endswith]. cbv beta iota.
  destruct (endswith url ".fifo"); cbv beta iota.
  - unfold mbind at 1, M_mbind, M_bind.
    change (py_getitem (PDict [("queue", PStr url); ("body", body)]) "body")
      with (Ok body).
    cbv beta iota.
    unfold mbind at 1, M_mbind, M_bind.
    destruct (gen_rand_str_run 3 w) as [group [Hgroup [Hlen1 Hletters1]]].
    rewrite Hgroup. cbv beta iota.
    unfold mbind at 1, M_mbind, M_bind.
    match goal with
    | |- context [gen_rand_str 3 ?w1] =>
        destruct (gen_rand_str_run 3 w1) as [dedup [Hdedup [Hlen2 Hletters2]]]
    end.
    rewrite Hdedup. cbv beta iota. unfold call. cbn [emu out fs stdin rand draws].
    eexists. split.
    + destruct (api SQS "send_message" _ _) as [[r | e] e']; reflexivity.
    + exists group, dedup. repeat split; assumption.
  - unfold mbind at 1, M_mbind, M_bind.
    change (py_getitem (PDict [("queue", PStr url); ("body", body)]) "body")
      with (Ok body).
    cbv beta iota.
    unfold call. cbn [emu out fs stdin rand draws]. eexists. split.
    + destruct (api SQS "send_message" _ _) as [[r | e] e']; reflexivity.
    + reflexivity.
Qed.

Lemma restore_message_loop_sent (msgs : list (string * pyval)) :
  forall w : world E,
    exists k sends r w',
      for_each (map saved_message msgs) restore_message w = (r, w') /\
      out w' = out w ++ sends /\
      Forall2 sends_message (take k msgs) sends /\
      (is_ok r = true -> k = length msgs).
Proof.
  induction msgs as [| m msgs IH]; intros w.
  - exists 0%nat, [], (Ok tt), w. simpl. rewrite app_nil_r.
    repeat split. constructor.
  - destruct (restore_message_sent m w) as [ev [Hout Hev]].
    simpl map. simpl for_each. unfold mbind, M_mbind, M_bind.
    destruct (restore_message (saved_message m) w) as [[[] | e] w1];
      cbn [fst snd] in Hout.
    + destruct (IH w1) as [k [sends [r [w' [Hrun [Hout' [Hall Hok]]]]]]].
      exists (S k), (ev :: sends), r, w'. split; [exact Hrun |].
      rewrite Hout', Hout, <- app_assoc. split; [reflexivity |].
      split; [now constructor |].
      intros Hr. simpl. now rewrite (Hok Hr).
    + exists 1%nat, [ev]. eexists. eexists. split; [reflexivity |].
      split; [exact Hout |]. split.
      * simpl. constructor; [exact Hev | constructor].
      * intros Hf. discriminate Hf.
Qed.

Lemma restore_queues_quiet :
  steady (fun ev => is_send_message ev = false) (restore_queues : M E unit).
Proof.
  unfold restore_queues, restore_queue.
  repeat (steady_step; try reflexivity).
Qed.

Lemma filter_sends (l : list (string * pyval)) sends :
  Forall2 sends_message l sends ->
  List.filter is_send_message sends = sends.
Proof.
  induction 1 as [| m ev l sends Hev _ IH]; [reflexivity |].
  simpl. rewrite IH. unfold sends_message in Hev.
  destruct (endswith (fst m) ".fifo").
  - destruct Hev as [g [d [_ [_ ->]]]]. reflexivity.
  - subst ev. reflexivity.
Qed.

End SentMessages.

(** X11: with a client and a message file holding message records,
    the [send_message] requests of [restore_sqs] are one per persisted
    message for the first [k] messages, in order, each to the record's
    queue URL with the record's body; the request carries
    [MessageGroupId] and [MessageDeduplicationId], each three random
    ASCII letters, exactly when the URL ends in [.fifo].  All messages
    are sent whenever [restore_sqs] returns. *)
Theorem restore_sqs_sends {E : Type} `{Boto E}
    (w : world E) (msgs : list (string * pyval)) :
  client SQS (emu w) = true ->
  fs w !! "sqs_messages.pickle"
    = Some (Pickle (PList (map saved_message msgs))) ->
  exists k sends evs r w',
    restore_sqs w = (r, w') /\
    out w' = out w ++ evs /\
    List.filter is_send_message evs = sends /\
    Forall2 sends_message (take k msgs) sends /\
    (is_ok r = true -> k = length msgs).
Proof.
  intros Hup Hfile.
  unfold restore_sqs.
  unfold mbind at 1, M_mbind, M_bind. unfold print at 1. cbv beta iota.
  unfold mbind at 1, M_mbind, M_bind.
  rewrite connect_up by exact Hup. cbv beta iota.
  set (w0 := emit (Print [PStr "Restoring SQS"]) w).
  unfold mbind at 1, M_mbind, M_bind.
  unfold mbind at 1, M_mbind, M_bind.
  destruct (restore_queues_quiet w0) as [Hfs1 [evs1 [Hout1 Hnone1]]].
  destruct (restore_queues w0) as [[[] | e] w1]; cbn [fst snd] in *.
  2:{ exists 0%nat, []. eexists. eexists. eexists.
      split; [reflexivity |]. rewrite Hout1. unfold w0. simpl.
      rewrite <- app_assoc. split; [reflexivity |].
      change (Print [PStr "Restoring SQS"] :: evs1)
        with ([Print [PStr "Restoring SQS"]] ++ evs1).
      rewrite List.filter_app, (filter_none _ _ Hnone1).
      split; [reflexivity |].
      split; [constructor | intros Hf; discriminate Hf]. }
  assert (fs w1 !! "sqs_messages.pickle"
          = Some (Pickle (PList (map saved_message msgs)))) as Hfile1
    by (rewrite Hfs1; exact Hfile).
  unfold restore_messages.
  unfold mbind at 1, M_mbind, M_bind, pickle_load. rewrite Hfile1.
  unfold mbind at 1, M_mbind, M_bind, lift. unfold py_len at 1.
  cbv beta iota.
  destruct (0 <? Z.of_nat (length (map saved_message msgs))) eqn:Hk.
  2:{ destruct msgs; [| discriminate].
      exists 0%nat, []. eexists. eexists. eexists.
      split; [reflexivity |]. simpl. rewrite Hout1. unfold w0. simpl.
      rewrite <- !app_assoc. split; [reflexivity |].
      change (Print [PStr "Restoring SQS"] :: ?l)
        with ([Print [PStr "Restoring SQS"]] ++ l).
      rewrite !List.filter_app, (filter_none _ _ Hnone1).
      split; [reflexivity |]. split; [constructor | reflexivity]. }
  unfold mbind at 1, M_mbind, M_bind, print.
  unfold mbind at 1, M_mbind, M_bind. unfold py_iter at 1. cbv beta iota.
  match goal with
  | |- context [for_each _ restore_message ?w3] =>
      destruct (restore_message_loop_sent msgs w3)
        as [k [sends [r [w' [Hrun [Hout2 [Hall Hok]]]]]]]
  end.
  rewrite Hrun. exists k, sends.
  destruct r as [[] | e]; (eexists; eexists; eexists;
    split; [reflexivity |]);
    rewrite Hout2; simpl out; rewrite Hout1; unfold w0; simpl out;
    rewrite <- !app_assoc; (split; [reflexivity |]);
    change (Print [PStr "Restoring SQS"] :: ?l)
      with ([Print [PStr "Restoring SQS"]] ++ l);
    rewrite !List.filter_app, (filter_none _ _ Hnone1);
    change (FileRead "sqs_messages.pickle" :: ?l)
      with ([FileRead "sqs_messages.pickle"] ++ l);
    rewrite !List.filter_app; simpl;
    rewrite (filter_sends _ _ Hall);
    (split; [reflexivity |]); (split; [exact Hall |]);
    first [exact Hok | intros Hf; discriminate Hf].
Qed.

Lemma restore_sqs_sends_witness :
  exists group dedup,
    three_letters group /\ three_letters dedup /\
    List.filter is_send_message
      (out (snd (restore_sqs
                   (LocalStack.world_of LocalStack.empty
                      (message_files two_messages) "r"))))
    = [ApiCall SQS "send_message"
         [("QueueUrl", PStr "http://localhost:4566/000000000000/jobs");
          ("MessageBody", PStr "resize")];
       ApiCall SQS "send_message"
         [("QueueUrl", PStr "http://localhost:4566/000000000000/orders.fifo");
          ("MessageBody", PStr "order 1");
          ("MessageGroupId", PStr group);
          ("MessageDeduplicationId", PStr dedup)]].
Proof.
  assert (client SQS (emu (LocalStack.world_of LocalStack.empty
                             (message_files two_messages) "r")) = true)
    as Hup by reflexivity.
  destruct (restore_sqs_sends
              (LocalStack.world_of LocalStack.empty
                 (message_files two_messages) "r")
              two_messages Hup eq_refl)
    as [k [sends [evs [r [w' [Hrun _]]]]]].
  exists "abc", "def". repeat split; vm_compute; reflexivity.
Defined.

(** ** Queue round trips *)




Section QueueRoundTrip.
Import LocalStack.












End QueueRoundTrip.





(** ** Topic round trips *)

Section TopicRoundTrip.
Import LocalStack.

Lemma topic_arns_loop (l : list (string * list subscription)) :
  forall (w : world state) acc,
    for_acc (map (fun t => PDict [("TopicArn", PStr (fst t))]) l) acc
      (fun topic topic_list =>
         arn ← lift (py_getitem topic "TopicArn");
         mret (topic_list ++ [arn])) w
    = (Ok (acc ++ map (fun t => PStr (fst t)) l), w).
Proof.
  induction l as [| t l IH]; intros w acc; simpl.
  - now rewrite app_nil_r.
  - unfold mbind at 1, M_mbind, M_bind. simpl. rewrite IH.
    now rewrite <- app_assoc.
Qed.

Lemma backup_subscriptions_loop topic (subs : list subscription) :
  forall (w : world state) acc,
    for_acc (map (show_subscription topic) subs) acc
      (fun subscription subscription_list =>
         this_sub ← lift (backup_subscription (PStr topic) subscription);
         mret (subscription_list ++ [this_sub])) w
    = (Ok (acc ++ map (subscription_record topic) subs), w).
Proof.
  induction subs as [| s subs IH]; intros w acc.
  - simpl. now rewrite app_nil_r.
  - cbn [map for_acc].
    rewrite (bind_ok _ _ _ (acc ++ [subscription_record topic s]) w).
    + rewrite IH. now rewrite <- app_assoc.
    + reflexivity.
Qed.

Lemma next_token_none {A} (limit : nat) (l : list A) :
  (length l <= limit)%nat -> next_token limit l = [].
Proof.
  intros Hfit. unfold next_token.
  destruct (Nat.ltb_spec limit (length l)); [lia | reflexivity].
Qed.

Lemma backup_topic_run (w : world state) topic subs acc :
  sns (emu w) !! topic = Some subs ->
  (length subs <= page_size)%nat ->
  exists w',
    backup_topic (PStr topic) acc w
      = (Ok (acc ++ map (subscription_record topic) subs), w') /\
    emu w' = emu w /\ fs w' = fs w.
Proof.
  intros Ht Hfit.
  assert (api SNS "list_subscriptions_by_topic" [("TopicArn", PStr topic)]
            (emu w)
          = (Ok (PDict [("Subscriptions",
                         PList (map (show_subscription topic) subs))]),
             emu w)) as Hcall.
  { change (api SNS "list_subscriptions_by_topic" ?k ?e)
      with (list_subscriptions_by_topic k e).
    unfold list_subscriptions_by_topic.
    change (str_arg "TopicArn" [("TopicArn", PStr topic)])
      with (@Ok string topic).
    cbv beta iota. rewrite Ht.
    now rewrite (take_ge _ _ Hfit), (next_token_none _ _ Hfit). }
  unfold backup_topic.
  rewrite (bind_ok _ _ _ _ _ (call_eq _ _ _ _ _ _ Hcall)).
  rewrite (bind_lift_ok _ _ _ (PList (map (show_subscription topic) subs)))
    by reflexivity.
  rewrite (bind_lift_ok _ _ _ (map (show_subscription topic) subs))
    by reflexivity.
  rewrite backup_subscriptions_loop.
  eexists. split; [reflexivity |]. split; reflexivity.
Qed.

Lemma backup_topics_loop (l : list (string * list subscription)) :
  forall (w : world state) acc,
    (forall t subs, (t, subs) ∈ l ->
       sns (emu w) !! t = Some subs /\ (length subs <= page_size)%nat) ->
    exists w',
      for_acc (map (fun t => PStr (fst t)) l) acc backup_topic w
        = (Ok (acc ++ flat_map topic_records l), w') /\
      emu w' = emu w /\ fs w' = fs w.
Proof.
  induction l as [| [t0 subs0] l IH]; intros w acc Hl.
  - exists w. simpl. now rewrite app_nil_r.
  - destruct (backup_topic_run w t0 subs0 acc) as [w1 [Hone [He1 Hfs1]]];
      [apply Hl; now left | apply (Hl t0); now left |].
    destruct (IH w1 (acc ++ map (subscription_record t0) subs0))
      as [w2 [Hrest [He2 Hfs2]]].
    { intros t subs Hin. rewrite He1. apply Hl. now right. }
    exists w2. simpl map. simpl for_acc. rewrite (bind_ok _ _ _ _ _ Hone).
    rewrite Hrest. simpl flat_map. unfold topic_records at 2.
    simpl fst. simpl snd. rewrite <- app_assoc.
    split; [reflexivity |]. split; congruence.
Qed.

Lemma picklable_topic_records (l : list (string * list subscription)) :
  picklable (PList (flat_map topic_records l)) = true.
Proof.
  simpl. apply forallb_forall. intros x Hx.
  apply in_flat_map in Hx as [t [_ Hx]].
  unfold topic_records in Hx. apply in_map_iff in Hx as [o [<- _]].
  reflexivity.
Qed.

Lemma backup_sns_run (w : world state) :
  client SNS (emu w) = true ->
  sns (emu w) <> ∅ ->
  within_pages (emu w) ->
  exists w',
    backup_sns w = (Ok false, w') /\
    emu w' = emu w /\
    fs w' =
      <["sns_subs.pickle" :=
          Pickle (PList (flat_map topic_records (map_to_list (sns (emu w)))))]>
        (<["sns_topics.pickle" :=
             Pickle (PList (map (fun t => PStr (fst t))
                                (map_to_list (sns (emu w)))))]> (fs w)).
Proof.
  intros Hup Hsome [Htopics Hsubs].
  set (l := map_to_list (sns (emu w))).
  assert (l <> []) as Hl.
  { unfold l. intros Hnil. apply Hsome. now apply map_to_list_empty_iff. }
  assert ((length l <= page_size)%nat) as Hfit
    by (unfold l; now rewrite length_map_to_list).
  assert (api SNS "list_topics" [] (emu w)
          = (Ok (PDict [("Topics",
                         PList (map (fun t => PDict [("TopicArn", PStr (fst t))])
                                    l))]),
             emu w)) as Hlist.
  { change (api SNS "list_topics" [] (emu w)) with (list_topics (emu w)).
    unfold list_topics. cbv zeta. fold l.
    now rewrite (take_ge _ _ Hfit), (next_token_none _ _ Hfit). }
  unfold backup_sns.
  rewrite (bind_ok _ _ _ _ _ (connect_up SNS _ w Hup)).
  unfold mbind at 1, M_mbind, M_bind.
  unfold mbind at 1, M_mbind, M_bind.
  rewrite (call_eq _ _ _ _ _ _ Hlist).
  unfold mbind at 1, M_mbind, M_bind, lift.
  change (py_getitem
            (PDict [("Topics",
                     PList (map (fun t => PDict [("TopicArn", PStr (fst t))])
                                l))]) "Topics")
    with (Ok (PList (map (fun t => PDict [("TopicArn", PStr (fst t))]) l))).
  cbv beta iota.
  unfold mbind at 1, M_mbind, M_bind. unfold py_len at 1. cbv beta iota.
  assert ((0 <? Z.of_nat
                  (length (map (fun t => PDict [("TopicArn", PStr (fst t))])
                               l))) = true) as ->.
  { apply Z.ltb_lt. rewrite length_map. destruct l; [contradiction |].
    simpl length. lia. }
  unfold mbind at 1, M_mbind, M_bind. unfold py_iter at 1. cbv beta iota.
  unfold mbind at 1, M_mbind, M_bind.
  rewrite topic_arns_loop. simpl app.
  unfold mbind at 1, M_mbind, M_bind.
  rewrite pickle_dump_eq by apply picklable_names.
  unfold mbind at 1, M_mbind, M_bind.
  match goal with
  | |- context [for_acc _ [] backup_topic ?w2] =>
      destruct (backup_topics_loop l w2 []) as [w3 [Hloop [He3 Hfs3]]]
  end.
  { intros t subs Hin. simpl emu. apply elem_of_map_to_list in Hin.
    split; [exact Hin | exact (Hsubs t subs Hin)]. }
  rewrite Hloop. simpl app.
  rewrite pickle_dump_eq by apply picklable_topic_records.
  eexists. split; [reflexivity |]. simpl. simpl in He3, Hfs3.
  split; [exact He3 |]. now rewrite Hfs3.
Qed.

Lemma create_topic_call (e : state) (name : string) :
  api SNS "create_topic" [("Name", PStr name)] e
  = (Ok (PDict [("TopicArn", PStr (topic_arn name))]),
     match sns e !! topic_arn name with
     | Some _ => e
     | None => set_sns e (<[topic_arn name := []]> (sns e))
     end).
Proof.
  change (api SNS "create_topic" ?k ?e) with (create_topic k e).
  unfold create_topic.
  change (str_arg "Name" [("Name", PStr name)]) with (@Ok string name).
  cbv beta iota zeta. now destruct (sns e !! topic_arn name).
Qed.

Lemma create_topic_run (w : world state) (arn : string) :
  arn = topic_arn (topic_name arn) ->
  exists w',
    restore_topic (PStr arn) w = (Ok tt, w') /\
    fs w' = fs w /\
    up (emu w') = up (emu w) /\
    sns (emu w') !! arn = Some (default [] (sns (emu w) !! arn)) /\
    (forall t, t <> arn -> sns (emu w') !! t = sns (emu w) !! t).
Proof.
  intros Harn.
  assert (last (split_on ":" arn) = Some (topic_name arn)) as Hlast.
  { unfold topic_name. destruct (last (split_on ":" arn)) eqn:Hl;
      [reflexivity |].
    apply last_None in Hl. now apply split_on_nonempty in Hl. }
  unfold restore_topic, mbind, M_mbind, M_bind, lift, print.
  change (py_split (PStr arn) ":")
    with (Ok (PList (map PStr (split_on ":" arn)))).
  cbv beta iota.
  rewrite (py_index_last _ _ Hlast). cbv beta iota.
  erewrite call_eq by apply create_topic_call.
  cbn [emu emit fs]. rewrite <- Harn.
  eexists. split; [reflexivity |]. cbn [fs emu].
  split; [reflexivity |].
  destruct (sns (emu w) !! arn) as [subs |] eqn:Ht;
    cbn [up set_sns sns default];
    (split; [reflexivity |]);
    (split; [first [exact Ht | apply lookup_insert_eq] |]);
    intros t Hne; first [reflexivity | now rewrite lookup_insert_ne].
Qed.

Lemma create_topics_loop (arns : list string) :
  forall w : world state,
    (forall t, t ∈ arns -> t = topic_arn (topic_name t)) ->
    exists w',
      for_each (map PStr arns) restore_topic w = (Ok tt, w') /\
      fs w' = fs w /\
      up (emu w') = up (emu w) /\
      (forall t, t ∈ arns ->
         sns (emu w') !! t = Some (default [] (sns (emu w) !! t))) /\
      (forall t, t ∉ arns -> sns (emu w') !! t = sns (emu w) !! t).
Proof.
  induction arns as [| t0 arns IH]; intros w Hfiled.
  - exists w. repeat split; try reflexivity.
    intros t Hin. now apply elem_of_nil in Hin.
  - destruct (create_topic_run w t0) as [w1 [Hone [Hfs1 [Hup1 [Hmade Hother]]]]];
      [apply Hfiled; now left |].
    destruct (IH w1) as [w2 [Hrest [Hfs2 [Hup2 [Hin Hout]]]]].
    { intros t Ht. apply Hfiled. now right. }
    exists w2. simpl map. simpl for_each. rewrite (bind_ok _ _ _ _ _ Hone).
    split; [exact Hrest |]. split; [congruence |]. split; [congruence |].
    assert (forall t, t ∈ arns ->
              sns (emu w2) !! t = Some (default [] (sns (emu w) !! t)))
      as Hrestin.
    { intros t Ht. rewrite (Hin t Ht).
      destruct (decide (t = t0)) as [-> | Hne].
      - rewrite Hmade. reflexivity.
      - now rewrite Hother. }
    split.
    + intros t Ht. apply elem_of_cons in Ht as [-> | Ht];
        [| now apply Hrestin].
      destruct (decide (t0 ∈ arns)) as [Hmem | Hmem];
        [now apply Hrestin |].
      rewrite Hout by exact Hmem. exact Hmade.
    + intros t Ht. apply not_elem_of_cons in Ht as [Hne Ht].
      rewrite Hout by exact Ht. now apply Hother.
Qed.

Lemma recreate_topics_run (w : world state) (arns : list string) :
  (forall t, t ∈ arns -> t = topic_arn (topic_name t)) ->
  fs w !! "sns_topics.pickle" = Some (Pickle (PList (map PStr arns))) ->
  exists w',
    restore_topics w = (Ok tt, w') /\
    fs w' = fs w /\
    up (emu w') = up (emu w) /\
    (forall t, t ∈ arns ->
       sns (emu w') !! t = Some (default [] (sns (emu w) !! t))) /\
    (forall t, t ∉ arns -> sns (emu w') !! t = sns (emu w) !! t).
Proof.
  intros Hfiled Hfile.
  destruct (create_topics_loop arns (emit (FileRead "sns_topics.pickle") w)
              Hfiled) as [w' [Hloop Hrest]].
  exists w'. split; [| exact Hrest].
  unfold restore_topics.
  unfold mbind at 1, M_mbind, M_bind, pickle_load. rewrite Hfile.
  unfold mbind at 1, M_mbind, M_bind, lift. unfold py_len at 1.
  cbv beta iota.
  destruct arns as [| t arns]; [exact Hloop |].
  assert ((0 <? Z.of_nat (length (map PStr (t :: arns)))) = true) as ->
    by (apply Z.ltb_lt; simpl length; lia).
  unfold mbind at 1, M_mbind, M_bind. unfold py_iter at 1. cbv beta iota.
  exact Hloop.
Qed.

Lemma resubscribe_run (w : world state) (records : list pyval) :
  fs w !! "sns_subs.pickle" = Some (Pickle (PList records)) ->
  exists w',
    restore_subscriptions py_has_key w
      = (match records with
         | [] => Ok tt
         | _ => Raise (AttributeError "has_key")
         end, w') /\
    emu w' = emu w.
Proof.
  intros Hfile. destruct records as [| r records].
  - unfold restore_subscriptions.
    unfold mbind at 1, M_mbind, M_bind, pickle_load. rewrite Hfile.
    eexists. split; reflexivity.
  - rewrite (restore_subscriptions_has_key w (PList (r :: records))
               (Z.of_nat (length (r :: records))) Hfile eq_refl)
      by (simpl length; lia).
    eexists. split; reflexivity.
Qed.

Lemma no_record_no_subscription (l : list (string * list subscription)) :
  match flat_map topic_records l with
  | [] => Ok false
  | _ => Raise (AttributeError "has_key")
  end
  = if forallb (fun t : string * list subscription =>
                  match snd t with [] => true | _ => false end) l
    then Ok false else Raise (AttributeError "has_key").
Proof.
  induction l as [| [t subs] l IH]; [reflexivity |].
  simpl. destruct subs as [| s subs]; [exact IH | reflexivity].
Qed.

Lemma restore_sns_run (w : world state)
    (l : list (string * list subscription)) :
  client SNS (emu w) = true ->
  (forall t, t ∈ map fst l -> t = topic_arn (topic_name t)) ->
  fs w !! "sns_topics.pickle"
    = Some (Pickle (PList (map (fun t => PStr (fst t)) l))) ->
  fs w !! "sns_subs.pickle"
    = Some (Pickle (PList (flat_map topic_records l))) ->
  exists w',
    restore_sns w
      = (match flat_map topic_records l with
         | [] => Ok false
         | _ => Raise (AttributeError "has_key")
         end, w') /\
    (forall t, t ∈ map fst l ->
       sns (emu w') !! t = Some (default [] (sns (emu w) !! t))) /\
    (forall t, t ∉ map fst l -> sns (emu w') !! t = sns (emu w) !! t).
Proof.
  intros Hup Hfiled Htopics Hsubs.
  rewrite <- (map_map fst PStr) in Htopics.
  destruct (recreate_topics_run w (map fst l) Hfiled Htopics)
    as [w1 [Hrun1 [Hfs1 [_ [Hmade Hother]]]]].
  destruct (resubscribe_run w1 (flat_map topic_records l))
    as [w2 [Hrun2 He2]]; [rewrite Hfs1; exact Hsubs |].
  exists w2. rewrite He2. split; [| split; assumption].
  unfold restore_sns, restore_sns_with.
  rewrite (bind_ok _ _ _ _ _ (connect_up SNS _ w Hup)).
  unfold mbind at 1, M_mbind, M_bind.
  rewrite (bind_ok _ _ _ _ _ Hrun1). rewrite Hrun2.
  now destruct (flat_map topic_records l).
Qed.

End TopicRoundTrip.

Lemma busy_topics_some : LocalStack.sns busy_topics <> ∅.
Proof. unfold busy_topics. cbn [LocalStack.sns]. apply insert_non_empty. Qed.

Lemma busy_topics_within_pages : within_pages busy_topics.
Proof.
  split; [apply Nat.leb_le; vm_compute; reflexivity |].
  intros arn subs. unfold busy_topics. cbn [LocalStack.sns].
  destruct (decide (arn = LocalStack.topic_arn "alerts")) as [-> | Halerts].
  - rewrite lookup_insert_eq. intros [= <-].
    apply Nat.leb_le. vm_compute. reflexivity.
  - rewrite lookup_insert_ne by done.
    destruct (decide (arn = LocalStack.topic_arn "billing"))
      as [-> | Hbilling].
    + rewrite lookup_insert_eq. intros [= <-].
      apply Nat.leb_le. vm_compute. reflexivity.
    + rewrite lookup_insert_ne by done. now rewrite lookup_empty.
Qed.

(** X13: on the emulator, with at least one topic, when the topics fit
    one page of the topic listing and the subscriptions of each topic
    one page of its subscription listing ([page_size]), [backup_sns]
    ends normally and leaves the environment as it was; the topic file
    holds the topic ARNs in listing order, the subscription file holds,
    topic by topic, one record per subscription with exactly the four
    plain fields (never a ['DLQARN'], whatever attributes the
    subscription has), and no other file is touched. *)
Theorem backup_sns_snapshot (w : world LocalStack.state) :
  client SNS (emu w) = true ->
  LocalStack.sns (emu w) <> ∅ ->
  within_pages (emu w) ->
  exists w',
    backup_sns w = (Ok false, w') /\
    emu w' = emu w /\
    fs w' !! "sns_topics.pickle"
      = Some (Pickle (PList (map (fun t => PStr (fst t))
                               (map_to_list (LocalStack.sns (emu w)))))) /\
    fs w' !! "sns_subs.pickle"
      = Some (Pickle (PList (flat_map topic_records
                               (map_to_list (LocalStack.sns (emu w)))))) /\
    (forall f, f <> "sns_topics.pickle" -> f <> "sns_subs.pickle" ->
               fs w' !! f = fs w !! f).
Proof.
  intros Hup Hsome Hfit.
  destruct (backup_sns_run w Hup Hsome Hfit) as [w' [Hrun [Hemu Hfs]]].
  exists w'. split; [exact Hrun |]. split; [exact Hemu |].
  rewrite Hfs. split; [| split].
  - rewrite lookup_insert_ne by done. apply lookup_insert_eq.
  - apply lookup_insert_eq.
  - intros f Htopics Hsubs. now rewrite !lookup_insert_ne.
Qed.

Lemma backup_sns_snapshot_witness :
  exists w',
    backup_sns (LocalStack.world_of busy_topics ∅ "b") = (Ok false, w') /\
    fs w' !! "sns_subs.pickle"
      = Some (Pickle (PList
          [PDict [("topicARN", PStr "arn:aws:sns:us-east-1:000000000000:alerts");
                  ("subARN",
                   PStr "arn:aws:sns:us-east-1:000000000000:alerts:0");
                  ("protocol", PStr "sqs");
                  ("endpoint",
                   PStr "arn:aws:sqs:us-east-1:000000000000:inbox")]])).
Proof.
  assert (client SNS (emu (LocalStack.world_of busy_topics ∅ "b")) = true)
    as Hup by reflexivity.
  destruct (backup_sns_snapshot (LocalStack.world_of busy_topics ∅ "b") Hup
              busy_topics_some busy_topics_within_pages)
    as [w' [Hrun [_ [_ [Hsubs _]]]]].
  exists w'. split; [exact Hrun |]. rewrite Hsubs.
  vm_compute. reflexivity.
Defined.

Lemma topics_created_spec (src target : LocalStack.state) (arn : string) :
  topics_created src target arn
  = match LocalStack.sns src !! arn with
    | Some _ => Some (default [] (LocalStack.sns target !! arn))
    | None => LocalStack.sns target !! arn
    end.
Proof.
  unfold topics_created.
  destruct (LocalStack.sns target !! arn), (LocalStack.sns src !! arn);
    reflexivity.
Qed.

(** X14: topic round trip on the emulator, when the source has a
    topic, its topics and the subscriptions of each fit one page of
    their listings ([page_size]), and every topic is filed under the
    ARN of its final part.  [backup_sns] ends normally; [restore_sns], run on its two files
    against any target, recreates the topics: every topic of the source
    is in the target, with the subscriptions the target already had for
    it or none.  No subscription is ever restored: when no topic of the
    source has a subscription [restore_sns] returns [False], and when
    one has it raises [AttributeError] for [has_key], the topics being
    created all the same. *)
Theorem roundtrip_sns (src target : world LocalStack.state) :
  client SNS (emu src) = true ->
  client SNS (emu target) = true ->
  LocalStack.sns (emu src) <> ∅ ->
  within_pages (emu src) ->
  topics_filed (emu src) ->
  exists src' target',
    backup_sns src = (Ok false, src') /\
    restore_sns (World (emu target) (fs src') (stdin target) (rand target)
                       (draws target) (out target))
      = (if no_subscription (emu src)
         then Ok false else Raise (AttributeError "has_key"),
         target') /\
    (forall arn,
       LocalStack.sns (emu target') !! arn
       = topics_created (emu src) (emu target) arn).
Proof.
  intros Hsrc Htarget Hsome Hfit Hfiled.
  destruct (backup_sns_run src Hsrc Hsome Hfit) as [src' [Hbackup [_ Hfs]]].
  destruct (restore_sns_run
              (World (emu target) (fs src') (stdin target) (rand target)
                     (draws target) (out target))
              (map_to_list (LocalStack.sns (emu src))))
    as [target' [Hrestore [Hmade Hkept]]].
  - exact Htarget.
  - intros t Ht. apply list_elem_of_fmap in Ht as [[t' subs] [-> Ht]].
    apply elem_of_map_to_list in Ht. exact (Hfiled _ _ Ht).
  - simpl fs. rewrite Hfs. rewrite lookup_insert_ne by done.
    apply lookup_insert_eq.
  - simpl fs. rewrite Hfs. apply lookup_insert_eq.
  - exists src', target'. split; [exact Hbackup |]. split.
    + rewrite Hrestore. unfold no_subscription.
      now rewrite no_record_no_subscription.
    + intros arn. rewrite topics_created_spec.
      destruct (LocalStack.sns (emu src) !! arn) as [subs |] eqn:Harn.
      * apply Hmade. apply list_elem_of_fmap. exists (arn, subs).
        split; [reflexivity |]. now apply elem_of_map_to_list.
      * apply Hkept. intros Hin.
        apply list_elem_of_fmap in Hin as [[t subs] [-> Hin]].
        apply elem_of_map_to_list in Hin. simpl in Harn. congruence.
Qed.

Lemma busy_topics_filed : topics_filed busy_topics.
Proof.
  intros arn subs. unfold busy_topics. cbn [LocalStack.sns].
  destruct (decide (arn = LocalStack.topic_arn "alerts")) as [-> | Halerts];
    [reflexivity |].
  rewrite lookup_insert_ne by done.
  destruct (decide (arn = LocalStack.topic_arn "billing")) as [-> | Hbilling];
    [reflexivity |].
  rewrite lookup_insert_ne by done. now rewrite lookup_empty.
Qed.

Lemma roundtrip_sns_witness :
  exists src' target',
    backup_sns (LocalStack.world_of busy_topics ∅ "b") = (Ok false, src') /\
    restore_sns (LocalStack.world_of LocalStack.empty (fs src') "r")
      = (Raise (AttributeError "has_key"), target') /\
    LocalStack.sns (emu target') !! LocalStack.topic_arn "alerts" = Some [].
Proof.
  assert (client SNS (emu (LocalStack.world_of busy_topics ∅ "b")) = true)
    as Hsrc by reflexivity.
  assert (client SNS (emu (LocalStack.world_of LocalStack.empty ∅ "r")) = true)
    as Htarget by reflexivity.
  destruct (roundtrip_sns
              (LocalStack.world_of busy_topics ∅ "b")
              (LocalStack.world_of LocalStack.empty ∅ "r") Hsrc Htarget
              busy_topics_some busy_topics_within_pages busy_topics_filed)
    as [src' [target' [Hbackup [Hrestore Hmade]]]].
  exists src', target'. split; [exact Hbackup |].
  split; [exact Hrestore |]. rewrite Hmade. reflexivity.
Defined.

(** ** The whole round trip *)

Section Keeps.
Context {E : Type} `{Boto E}.
Variable R : E -> E -> Prop.
Hypothesis R_refl : forall e, R e e.
Hypothesis R_trans : forall e1 e2 e3, R e1 e2 -> R e2 e3 -> R e1 e3.










End Keeps.


Section WholeRoundTrip.
Import LocalStack.











End WholeRoundTrip.






(** ** Faults and the file written last *)

Section Guarded.
Context {E : Type} `{Boto E}.
Variable f : string.

Lemma guarded_ret {A} (a : A) : guarded f (mret a : M E A).
Proof. intros w Hf. discriminate Hf. Qed.

Lemma guarded_dump v : guarded f (pickle_dump f v : M E unit).
Proof.
  intros w. unfold pickle_dump. destruct (picklable v); simpl.
  - intros Hf. discriminate Hf.
  - intros _. right. apply lookup_insert_eq.
Qed.

Lemma guarded_bind {A B} (m : M E A) (k : A -> M E B) :
  confined (other_than f) (fun _ => True) m ->
  (forall a, guarded f (k a)) ->
  guarded f (m ≫= k).
Proof.
  intros Hm Hk w. unfold mbind, M_mbind, M_bind.
  destruct (Hm w) as [Hfs _].
  assert (other_than f f = false) as Hf
    by (unfold other_than; now rewrite String.eqb_refl).
  specialize (Hfs f Hf).
  destruct (m w) as [[a | e] w1]; cbn [fst snd] in *.
  - intros Hraise. destruct (Hk a w1 Hraise) as [Hsame | Hcut].
    + left. now rewrite Hsame.
    + now right.
  - intros _. now left.
Qed.

Lemma guarded_then_ret {A B} (m : M E A) (b : B) :
  guarded f m -> guarded f (m;; mret b).
Proof.
  intros Hm w. unfold mbind, M_mbind, M_bind.
  specialize (Hm w).
  destruct (m w) as [[a | e] w1]; cbn [fst snd] in *.
  - intros Hf. discriminate Hf.
  - exact Hm.
Qed.

End Guarded.

Ltac guarded_step :=
  match goal with
  | |- guarded _ (pickle_dump _ _) => apply guarded_dump
  | |- guarded _ (mret _) => apply guarded_ret
  | |- guarded _ (if ?b then _ else _) => destruct b
  | |- guarded _ (mbind _ _) =>
      apply guarded_bind;
      [first [ apply confined_dump; [reflexivity | exact I]
             | apply confined_steady; repeat (steady_step; try exact I) ]
      | intros ?]
  end.

(** X16: each backup step writes its second file last, from what it
    has gathered in memory.  So whenever a step ends in a fault, for
    any behaviour of the service, that file holds no new snapshot: the
    object file after a fault of [backup_s3], the message file after a
    fault of [backup_sqs] (whatever messages the step had already
    deleted from their queues), the subscription file after a fault of
    [backup_sns] is as it was before the step, or has been left
    empty. *)
Theorem backup_fault_leaves_last_file {E : Type} `{Boto E} (w : world E) :
  (is_ok (fst (backup_s3 w)) = false ->
   unrenewed "s3_objects.pickle" w (snd (backup_s3 w))) /\
  (is_ok (fst (backup_sqs w)) = false ->
   unrenewed "sqs_messages.pickle" w (snd (backup_sqs w))) /\
  (is_ok (fst (backup_sns w)) = false ->
   unrenewed "sns_subs.pickle" w (snd (backup_sns w))).
Proof.
  split; [| split].
  - revert w. change (guarded "s3_objects.pickle" (backup_s3 : M E bool)).
    unfold backup_s3, backup_bucket, backup_object.
    guarded_step. apply guarded_then_ret.
    repeat guarded_step.
  - revert w. change (guarded "sqs_messages.pickle" (backup_sqs : M E bool)).
    unfold backup_sqs, backup_queue, drain_one.
    guarded_step. apply guarded_then_ret.
    repeat guarded_step.
  - revert w. change (guarded "sns_subs.pickle" (backup_sns : M E bool)).
    unfold backup_sns, backup_topic.
    guarded_step. apply guarded_then_ret.
    repeat guarded_step.
Qed.

Lemma backup_fault_leaves_last_file_witness :
  is_ok (fst (backup_s3 (LocalStack.world_of mixed_store ∅ "b"))) = false /\
  unrenewed "s3_objects.pickle" (LocalStack.world_of mixed_store ∅ "b")
    (snd (backup_s3 (LocalStack.world_of mixed_store ∅ "b"))).
Proof.
  assert (is_ok (fst (backup_s3 (LocalStack.world_of mixed_store ∅ "b")))
          = false) as Hfault by (vm_compute; reflexivity).
  split; [exact Hfault |].
  exact (proj1 (backup_fault_leaves_last_file
                  (LocalStack.world_of mixed_store ∅ "b")) Hfault).
Defined.
